(** * Facebook Marketing streams: cursor state, request parameters, batches

    A shallow embedding of
    [source_facebook_marketing/streams/streams.py] and the properties of
    its incremental cursor, its request parameters, its batched detail
    fetch and its thumbnail enrichment.

    Python mappings are finite maps with string keys, exceptions are an
    explicit result type, the logger and the remote services are a world
    that the effectful functions thread, and a generator is a procedure
    that takes what happens at each [yield]. *)

From Stdlib Require Import ZArith Ascii.
From stdpp Require Import gmap strings list fin_maps pretty.

#[local] Set Warnings "-register-all".
#[local] Open Scope Z_scope.

(** ** Python values *)

Inductive value :=
| VNone
| VBool (b : bool)
| VInt (n : Z)
| VStr (s : string)
| VList (xs : list value)
| VDict (d : gmap string value).

Abbreviation dict := (gmap string value).

(** Truth value of an object as [if], [not], [and] and [or] see it. *)
Definition truthy (v : value) : bool :=
  match v with
  | VNone => false
  | VBool b => b
  | VInt n => negb (n =? 0)
  | VStr s => negb (String.eqb s "")
  | VList xs => match xs with [] => false | _ => true end
  | VDict d => match map_to_list d with [] => false | _ => true end
  end.

(** [a or b] *)
Definition py_or (a b : value) : value := if truthy a then a else b.

(** [str(v)] on the values that reach it here: text is returned as it is. *)
Definition py_str (v : value) : string :=
  match v with
  | VStr s => s
  | VNone => "None"
  | VBool true => "True"
  | VBool false => "False"
  | VInt n => pretty n
  | VList _ | VDict _ => ""
  end.

(** An f-string field holding the class attribute [entity_prefix], which
    is [None] on the base class. *)
Definition fmt_prefix (p : option string) : string := default "None" p.

(** ** Exceptions and results *)

Inductive exn :=
| KeyError (key : string)
| TypeError
| ParserError (text : string)
| TransportFault (msg : string).

Inductive res (A : Type) :=
| Ok (a : A)
| Raise (e : exn)
| OutOfFuel.
Arguments Ok {A} a.
Arguments Raise {A} e.
Arguments OutOfFuel {A}.

#[global] Instance res_ret : MRet res := fun A a => Ok a.
#[global] Instance res_bind : MBind res := fun A B k m =>
  match m with
  | Ok a => k a
  | Raise e => Raise e
  | OutOfFuel => OutOfFuel
  end.

(** [d.get(key, dflt)] and [d[key]] *)
Definition dict_get (d : dict) (key : string) (dflt : value) : value :=
  default dflt (d !! key).

Definition getitem (d : dict) (key : string) : res value :=
  match d !! key with
  | Some v => Ok v
  | None => Raise (KeyError key)
  end.

(** ** Timestamps

    A pendulum [DateTime] is an instant with the offset it is displayed
    in; two of them compare by instant. *)

Record DateTime := mkDateTime {
  epoch_us : Z;     (* microseconds since 1970-01-01T00:00:00Z *)
  utcoffset : Z     (* seconds east of UTC *)
}.

(** [d.int_timestamp]: whole seconds since the epoch, rounded down. *)
Definition int_timestamp (d : DateTime) : Z := epoch_us d / 1000000.

(** [a > b] *)
Definition dt_gt (a b : DateTime) : bool := epoch_us b <? epoch_us a.

(** [max(a, b)]: the first argument stays unless the second is greater. *)
Definition py_max (a b : DateTime) : DateTime := if dt_gt b a then b else a.

(** The pendulum library: text to timestamp and back. [parse] answers
    [None] where [pendulum.parse] raises its parser error. Text that
    pendulum reads as something other than a timestamp (a duration such
    as [P1D], an interval) is not covered: the properties below speak of
    cursors that read as timestamps or are refused. *)
Class Pendulum := {
  parse : string -> option DateTime;
  DateTime_str : DateTime -> string
}.

(** ** The remote services *)

Inductive Edge :=
| get_ad_creatives | get_ads | get_ad_sets | get_campaigns | get_ad_videos.

Record Response := mkResponse {
  resp_body : string;     (* response.body() *)
  resp_json : dict        (* response.json() *)
}.

(** What one request of an executed batch comes back with: either of the
    two callbacks is called, or there is no answer and the request goes
    into the batch that [execute] returns. A batch call that fails as a
    whole, which the SDK raises and [_execute_batch] does not handle, is
    not covered. *)
Inductive Outcome :=
| Succeeded (r : Response)
| Failed (r : Response)
| NoAnswer.

Class FacebookApi := {
  FB : Type;                 (* state of the remote API *)
  Entity : Type;             (* an object of a listing *)
  Request : Type;            (* a pending detail fetch *)
  account_edge : Edge -> value -> option (list string) -> FB -> res (list Entity) * FB;
  api_get_pending : Entity -> list string -> Request;
  api_get : Entity -> list string -> FB -> res dict * FB;
  respond : Request -> FB -> Outcome * FB
}.

Record HttpResponse := mkHttpResponse {
  status_code : Z;
  headers : gmap string string;   (* keys in lower case *)
  content : list Byte.byte
}.

Inductive GetResult :=
| Got (r : HttpResponse)
| RequestException (msg : string).

Class Requests := {
  Net : Type;
  requests_get : value -> Net -> GetResult * Net
}.

(** ** Base64, as [base64.b64encode] followed by [decode('ascii')] *)

Definition b64_alphabet : list ascii :=
  String.list_ascii_of_string
    "ABCDEFGHIJKLMNOPQRSTUVWXYZabcdefghijklmnopqrstuvwxyz0123456789+/".

Definition b64_char (n : N) : ascii :=
  nth (N.to_nat (N.land n 63)) b64_alphabet "="%char.

Fixpoint b64encode (bs : list Byte.byte) : string :=
  match bs with
  | [] => ""
  | [a] =>
      let n := N.shiftl (Byte.to_N a) 16 in
      String (b64_char (N.shiftr n 18))
        (String (b64_char (N.shiftr n 12)) "==")
  | [a; b] =>
      let n := N.lor (N.shiftl (Byte.to_N a) 16) (N.shiftl (Byte.to_N b) 8) in
      String (b64_char (N.shiftr n 18))
        (String (b64_char (N.shiftr n 12))
           (String (b64_char (N.shiftr n 6)) "="))
  | a :: b :: c :: rest =>
      let n := N.lor (N.lor (N.shiftl (Byte.to_N a) 16) (N.shiftl (Byte.to_N b) 8))
                     (Byte.to_N c) in
      String (b64_char (N.shiftr n 18))
        (String (b64_char (N.shiftr n 12))
           (String (b64_char (N.shiftr n 6))
              (String (b64_char n) (b64encode rest))))
  end.

(** ** Stream classes and instances *)

Record StreamClass := {
  name : string;
  json_schema_properties : list string;
  page_size : Z;
  use_batch : bool;
  enable_deleted : bool;
  entity_prefix : option string;
  MAX_BATCH_SIZE : nat
}.

(** The class attributes of [FBMarketingStream] itself. *)
Definition FBMarketingStream_class (name : string) (schema : list string) : StreamClass :=
  {| name := name;
     json_schema_properties := schema;
     page_size := 100;
     use_batch := false;
     enable_deleted := false;
     entity_prefix := None;
     MAX_BATCH_SIZE := 50 |}.

Record FBMarketingStream := {
  cls :> StreamClass;
  _include_deleted : bool
}.

Definition FBMarketingStream__init__ (c : StreamClass) (include_deleted : bool)
  : FBMarketingStream :=
  {| cls := c;
     _include_deleted := if enable_deleted c then include_deleted else false |}.

Record FBMarketingIncrementalStream := {
  base :> FBMarketingStream;
  cursor_field : string;
  _start_date : DateTime;
  _end_date : DateTime
}.

Definition FBMarketingIncrementalStream__init__
    (c : StreamClass) (start_date end_date : DateTime) (include_deleted : bool)
  : FBMarketingIncrementalStream :=
  {| base := FBMarketingStream__init__ c include_deleted;
     cursor_field := "updated_time";
     _start_date := start_date;
     _end_date := end_date |}.

Record AdCreatives := {
  ac_base :> FBMarketingStream;
  _fetch_thumbnail_images : bool
}.

Definition AdCreatives_class (schema : list string) : StreamClass :=
  {| name := "ad_creatives";
     json_schema_properties := schema;
     page_size := 100;
     use_batch := true;
     enable_deleted := false;
     entity_prefix := Some "adcreative";
     MAX_BATCH_SIZE := 50 |}.

Definition AdCreatives__init__ (schema : list string)
    (fetch_thumbnail_images include_deleted : bool) : AdCreatives :=
  {| ac_base := FBMarketingStream__init__ (AdCreatives_class schema) include_deleted;
     _fetch_thumbnail_images := fetch_thumbnail_images |}.

Definition incremental_class (name prefix : string) (schema : list string) : StreamClass :=
  {| name := name;
     json_schema_properties := schema;
     page_size := 100;
     use_batch := false;
     enable_deleted := true;
     entity_prefix := Some prefix;
     MAX_BATCH_SIZE := 50 |}.

Definition Ads (schema : list string) :=
  FBMarketingIncrementalStream__init__ (incremental_class "ads" "ad" schema).
Definition AdSets (schema : list string) :=
  FBMarketingIncrementalStream__init__ (incremental_class "ad_sets" "adset" schema).
Definition Campaigns (schema : list string) :=
  FBMarketingIncrementalStream__init__ (incremental_class "campaigns" "campaign" schema).
Definition Videos (schema : list string) :=
  FBMarketingIncrementalStream__init__ (incremental_class "videos" "video" schema).

(** ** Merging parameters *)

(** Modelled from the spec: [deep_merge] of the connector's [common]
    module, which the incremental [request_params] imports and which is
    not among the sources at hand. The state filter "extends" the base
    parameters and a status filter is "merged in" to the ordered list
    [filtering]: two mappings are merged key by key, two lists are put one
    after the other, and otherwise the second value wins unless it is
    [None]. A key that only the second mapping has keeps its value there
    (its merge with the absent [None] of the first). *)
Fixpoint deep_merge (a b : value) {struct a} : value :=
  match a, b with
  | VDict da, VDict db =>
      VDict (merge (fun x y =>
                      match x, y with
                      | Some x', Some y' => Some (deep_merge x' y')
                      | Some x', None => Some (deep_merge x' VNone)
                      | None, _ => y
                      end) da db)
  | VList xs, VList ys => VList (xs ++ ys)
  | _, VNone => a
  | _, _ => b
  end.

(** ** Cursor state of an incremental stream *)

(** [pendulum.parse(v)]: only text is parsed. *)
Definition pendulum_parse `{Pendulum} (v : value) : res DateTime :=
  match v with
  | VStr s =>
      match parse s with
      | Some d => Ok d
      | None => Raise (ParserError s)
      end
  | _ => Raise TypeError
  end.

(** [self._include_deleted and not state.get("include_deleted", False)] *)
Definition potentially_new_records_in_the_past
    (self : FBMarketingStream) (stream_state : dict) : bool :=
  _include_deleted self
  && negb (truthy (dict_get stream_state "include_deleted" (VBool false))).

Definition get_updated_state `{Pendulum} (self : FBMarketingIncrementalStream)
    (current_stream_state latest_record : dict) : res dict :=
  let potentially_new := potentially_new_records_in_the_past self current_stream_state in
  record_value ← getitem latest_record (cursor_field self);
  let state_value :=
    py_or (dict_get current_stream_state (cursor_field self) VNone) record_value in
  parsed_state ← pendulum_parse state_value;
  parsed_record ← pendulum_parse record_value;
  let max_cursor := DateTime_str (py_max parsed_state parsed_record) in
  let max_cursor := if potentially_new then py_str record_value else max_cursor in
  Ok (<["include_deleted" := VBool (_include_deleted self)]>
        (<[cursor_field self := VStr max_cursor]> ∅)).

(** ** Request parameters of the base stream *)

Definition filt_values : list string :=
  [ "active"; "archived"; "completed"; "limited"; "not_delivering"; "deleted";
    "not_published"; "pending_review"; "permanently_deleted";
    "recently_completed"; "recently_rejected"; "rejected"; "scheduled";
    "inactive" ]%string.

Definition filter_clause (field operator : string) (v : value) : value :=
  VDict (<["value" := v]> (<["operator" := VStr operator]> (<["field" := VStr field]> ∅))).

Definition _filter_all_statuses (self : FBMarketingStream) : dict :=
  {[ "filtering" :=
       VList [ filter_clause (fmt_prefix (entity_prefix self) +:+ ".delivery_info")
                 "IN" (VList (VStr <$> filt_values)) ] ]}.

(** [params.update(other)]: the keys of [other] win. *)
Definition dict_update (params other : dict) : dict := other ∪ params.

Definition FBMarketingStream_request_params (self : FBMarketingStream) : dict :=
  let params : dict := {[ "limit" := VInt (page_size self) ]} in
  if _include_deleted self
  then dict_update params (_filter_all_statuses self)
  else params.

(** ** The world of the effectful operations *)

Inductive Level := INFO | WARNING.

Section Effects.
Context `{Pendulum} `{FacebookApi} `{Requests}.

(** What a run leaves behind, in order: the batches handed to the
    transport, the lines of the logger, the records given to the caller. *)
Inductive Event :=
| EvExecute (batch : list Request)
| EvLog (level : Level) (msg : string)
| EvYield (record : dict).

Record World := mkWorld {
  fb : FB;
  net : Net;
  trace : list Event
}.

Definition M (A : Type) : Type := World -> res A * World.

#[global] Instance M_ret : MRet M := fun A a w => (Ok a, w).
#[global] Instance M_bind : MBind M := fun A B k m w =>
  match m w with
  | (Ok a, w') => k a w'
  | (Raise e, w') => (Raise e, w')
  | (OutOfFuel, w') => (OutOfFuel, w')
  end.

Definition lift_res {A} (r : res A) : M A := fun w => (r, w).

Definition record_event (e : Event) : M () :=
  fun w => (Ok (), mkWorld (fb w) (net w) (trace w ++ [e])).

Definition log (level : Level) (msg : string) : M () := record_event (EvLog level msg).

(** The caller of a generator that takes every record it is given. *)
Definition emit (record : dict) : M () := record_event (EvYield record).

Definition on_fb {A} (f : FB -> A * FB) : M A :=
  fun w => let (a, s) := f (fb w) in (Ok a, mkWorld s (net w) (trace w)).

Definition on_fb_res {A} (f : FB -> res A * FB) : M A :=
  fun w => let (a, s) := f (fb w) in (a, mkWorld s (net w) (trace w)).

Definition on_net {A} (f : Net -> A * Net) : M A :=
  fun w => let (a, s) := f (net w) in (Ok a, mkWorld (fb w) s (trace w)).

(** [for x in xs: body(x)] *)
Fixpoint for_each {A} (xs : list A) (body : A -> M ()) : M () :=
  match xs with
  | [] => mret ()
  | x :: rest => body x;; for_each rest body
  end.

(** ** Request parameters of an incremental stream *)

Definition _state_filter (self : FBMarketingIncrementalStream) (stream_state : dict)
  : M dict :=
  let state_value := dict_get stream_state (cursor_field self) VNone in
  filter_value ←
    (if negb (truthy state_value)
     then mret (_start_date self)
     else lift_res (pendulum_parse state_value));
  filter_value ←
    (if potentially_new_records_in_the_past self stream_state
     then
       log INFO ("Ignoring bookmark for " +:+ name self
                 +:+ " because of enabled `include_deleted` option");;
       mret (_start_date self)
     else mret filter_value);
  mret ({[ "filtering" :=
             VList [ filter_clause
                       (fmt_prefix (entity_prefix self) +:+ "." +:+ cursor_field self)
                       "GREATER_THAN" (VInt (int_timestamp filter_value)) ] ]} : dict).

(** [stream_state or {}]: a missing state is the empty mapping. *)
Definition state_or_empty (stream_state : option dict) : dict := default ∅ stream_state.

Definition request_params (self : FBMarketingIncrementalStream)
    (stream_state : option dict) : M value :=
  let params := FBMarketingStream_request_params self in
  state_filter ← _state_filter self (state_or_empty stream_state);
  mret (deep_merge (VDict params) (VDict state_filter)).

(** ** Batched detail fetch *)

(** The two callbacks that [execute_in_batch] registers with every
    request. They share its local list [records]. *)
Definition success (response : Response) (records : list dict) : M (list dict) :=
  mret (records ++ [resp_json response]).

Definition failure (response : Response) (records : list dict) : M (list dict) :=
  log WARNING ("Request failed with response: " +:+ resp_body response);;
  mret records.

(** The transport answers the requests of a batch one after the other. *)
Fixpoint send (batch : list Request) (s : FB) : list Outcome * FB :=
  match batch with
  | [] => ([], s)
  | request :: rest =>
      let (o, s1) := respond request s in
      let (os, s2) := send rest s1 in
      (o :: os, s2)
  end.

(** The callbacks run in the order of the batch; the requests left
    without an answer make up the batch to run again. *)
Fixpoint dispatch (answers : list (Request * Outcome)) (records : list dict)
  : M (list Request * list dict) :=
  match answers with
  | [] => mret ([], records)
  | (request, o) :: rest =>
      match o with
      | Succeeded r =>
          records ← success r records;
          dispatch rest records
      | Failed r =>
          records ← failure r records;
          dispatch rest records
      | NoAnswer =>
          '(again, records) ← dispatch rest records;
          mret (request :: again, records)
      end
  end.

(** [batch.execute()] of the SDK. *)
Definition batch_execute (batch : list Request) (records : list dict)
  : M (list Request * list dict) :=
  record_event (EvExecute batch);;
  answers ← on_fb (send batch);
  dispatch (zip batch answers) records.

(** [while batch: batch = batch.execute() ...]; an empty batch is false.
    Each turn of the loop takes one unit of fuel. *)
Fixpoint _execute_batch (fuel : nat) (batch : list Request) (records : list dict)
  : M (list dict) :=
  match batch with
  | [] => mret records
  | _ :: _ =>
      match fuel with
      | O => fun w => (OutOfFuel, w)
      | S fuel' =>
          '(batch', records') ← batch_execute batch records;
          (match batch' with
           | [] => mret ()
           | _ :: _ => log INFO "Retry failed requests in batch"
           end);;
          _execute_batch fuel' batch' records'
      end
  end.

(** The [for] loop of [execute_in_batch] with its two local variables,
    followed by the flush after the loop. *)
Fixpoint execute_in_batch_from (self : FBMarketingStream) (fuel : nat)
    (pending_requests : list Request) (api_batch : list Request)
    (records : list dict) (yield_ : dict -> M ()) : M () :=
  match pending_requests with
  | [] =>
      records ← _execute_batch fuel api_batch records;
      for_each records yield_
  | request :: rest =>
      let api_batch := api_batch ++ [request] in
      if Nat.eqb (length api_batch) (MAX_BATCH_SIZE self) then
        records ← _execute_batch fuel api_batch records;
        for_each records yield_;;
        execute_in_batch_from self fuel rest [] [] yield_
      else
        execute_in_batch_from self fuel rest api_batch records yield_
  end.

Definition execute_in_batch (self : FBMarketingStream) (fuel : nat)
    (pending_requests : list Request) (yield_ : dict -> M ()) : M () :=
  execute_in_batch_from self fuel pending_requests [] [] yield_.

(** ** Reading records *)

(** [fields], [request_params] and [_read_records] are looked up on the
    object, so the base [read_records] takes the ones of its class. The
    listing is taken as one call that gives all its entities or a fault;
    a fault on a later page of a listing that has begun is not covered. *)
Definition fields (self : FBMarketingStream) : list string :=
  json_schema_properties self.

Definition _read_records (params : value) : M (list Entity) := mret [].

Definition read_records (self : FBMarketingStream)
    (self_request_params : M value) (self_fields : list string)
    (self__read_records : value -> M (list Entity))
    (fuel : nat) (yield_ : dict -> M ()) : M () :=
  params ← self_request_params;
  records_iter ← self__read_records params;
  if use_batch self then
    execute_in_batch self fuel
      ((fun record => api_get_pending record self_fields) <$> records_iter) yield_
  else
    for_each records_iter (fun record =>
      loaded ← on_fb_res (api_get record self_fields);
      yield_ loaded).

(** *** Thumbnails of ad creatives *)

(** [repr(response)] *)
Definition repr_response (response : HttpResponse) : string :=
  "<Response [" +:+ pretty (status_code response) +:+ "]>".

Definition fetch_thumbnail_data_url (url : value) : M value :=
  got ← on_net (requests_get url);
  match got with
  | Got response =>
      if status_code response =? 200 then
        _type ← lift_res (match headers response !! "content-type" with
                          | Some t => Ok t
                          | None => Raise (KeyError "content-type")
                          end);
        let data := b64encode (content response) in
        mret (VStr ("data:" +:+ _type +:+ ";base64," +:+ data))
      else
        log WARNING ("Got " +:+ repr_response response
                     +:+ " while requesting thumbnail image.");;
        mret VNone
  | RequestException msg =>
      log WARNING ("Got " +:+ msg +:+ " while requesting thumbnail image.");;
      mret VNone
  end.

Definition AdCreatives_fields (self : AdCreatives) : list string :=
  filter (fun f => f ≠ "thumbnail_data_url") (fields self).

Definition AdCreatives__read_records (params : value) : M (list Entity) :=
  on_fb_res (account_edge get_ad_creatives params None).

(** The body of the loop over the records of the base [read_records]. *)
Definition AdCreatives_each (self : AdCreatives) (yield_ : dict -> M ())
    (record : dict) : M () :=
  record ←
    (if _fetch_thumbnail_images self then
       data_url ← fetch_thumbnail_data_url (dict_get record "thumbnail_url" VNone);
       mret (<["thumbnail_data_url" := data_url]> record)
     else mret record);
  yield_ record.

Definition AdCreatives_read_records (self : AdCreatives) (fuel : nat)
    (yield_ : dict -> M ()) : M () :=
  read_records self
    (mret (VDict (FBMarketingStream_request_params self)))
    (AdCreatives_fields self) AdCreatives__read_records
    fuel (AdCreatives_each self yield_).

(** *** The incremental streams *)

Definition Ads__read_records (self : FBMarketingIncrementalStream) (params : value)
  : M (list Entity) :=
  on_fb_res (account_edge get_ads params (Some [cursor_field self])).

Definition AdSets__read_records (params : value) : M (list Entity) :=
  on_fb_res (account_edge get_ad_sets params None).

Definition Campaigns__read_records (params : value) : M (list Entity) :=
  on_fb_res (account_edge get_campaigns params None).

Definition Videos__read_records (params : value) : M (list Entity) :=
  on_fb_res (account_edge get_ad_videos params None).

Definition incremental_read_records (self : FBMarketingIncrementalStream)
    (self__read_records : value -> M (list Entity))
    (fuel : nat) (stream_state : option dict) (yield_ : dict -> M ()) : M () :=
  read_records self (request_params self stream_state) (fields self)
    self__read_records fuel yield_.

End Effects.

(** ** A reader and writer of ISO-8601 timestamps

    An instance of the timestamp interface for the worked examples: it
    reads [YYYY-MM-DDTHH:MM:SS] followed by nothing, [Z], [+HH:MM] or
    [+HHMM] (either sign), and writes the [isoformat] of a timestamp. *)
Module Iso8601.

Definition digit (c : ascii) : option Z :=
  let n := Z.of_N (N_of_ascii c) - 48 in
  if (0 <=? n) && (n <=? 9) then Some n else None.

Fixpoint number (cs : list ascii) (acc : Z) : option Z :=
  match cs with
  | [] => Some acc
  | c :: rest => d ← digit c; number rest (10 * acc + d)
  end.

Definition is_char (c : ascii) (s : string) : bool := String.eqb (String c "") s.

(** Days from 1970-01-01 to a date of the proleptic Gregorian calendar. *)
Definition days_from_civil (y m d : Z) : Z :=
  let y' := if m <=? 2 then y - 1 else y in
  let era := y' / 400 in
  let yoe := y' - era * 400 in
  let doy := (153 * (if 2 <? m then m - 3 else m + 9) + 2) / 5 + d - 1 in
  let doe := yoe * 365 + yoe / 4 - yoe / 100 + doy in
  era * 146097 + doe - 719468.

Definition civil_from_days (days : Z) : Z * Z * Z :=
  let z := days + 719468 in
  let era := z / 146097 in
  let doe := z - era * 146097 in
  let yoe := (doe - doe / 1460 + doe / 36524 - doe / 146096) / 365 in
  let doy := doe - (365 * yoe + yoe / 4 - yoe / 100) in
  let mp := (5 * doy + 2) / 153 in
  let d := doy - (153 * mp + 2) / 5 + 1 in
  let m := if mp <? 10 then mp + 3 else mp - 9 in
  let y := yoe + era * 400 + (if m <=? 2 then 1 else 0) in
  (y, m, d).

Definition days_in_month (y m : Z) : Z :=
  days_from_civil (if m =? 12 then y + 1 else y) (if m =? 12 then 1 else m + 1) 1
  - days_from_civil y m 1.

Definition read_zone (cs : list ascii) : option Z :=
  match cs with
  | [] => Some 0
  | [z] => if is_char z "Z" then Some 0 else None
  | sign :: rest =>
      sgn ← (if is_char sign "+" then Some 1
             else if is_char sign "-" then Some (-1) else None);
      '(hh, mm) ← match rest with
                   | [h1; h2; m1; m2] => Some ([h1; h2], [m1; m2])
                   | [h1; h2; c; m1; m2] =>
                       if is_char c ":" then Some ([h1; h2], [m1; m2]) else None
                   | _ => None
                   end;
      h ← number hh 0;
      m ← number mm 0;
      if (h <=? 23) && (m <=? 59) then Some (sgn * (h * 3600 + m * 60)) else None
  end.

Definition read (s : string) : option DateTime :=
  match String.list_ascii_of_string s with
  | y1 :: y2 :: y3 :: y4 :: c1 :: m1 :: m2 :: c2 :: d1 :: d2 :: t
      :: h1 :: h2 :: c3 :: i1 :: i2 :: c4 :: s1 :: s2 :: zone =>
      if is_char c1 "-" && is_char c2 "-" && is_char t "T"
         && is_char c3 ":" && is_char c4 ":" then
        y ← number [y1; y2; y3; y4] 0;
        m ← number [m1; m2] 0;
        d ← number [d1; d2] 0;
        h ← number [h1; h2] 0;
        i ← number [i1; i2] 0;
        sec ← number [s1; s2] 0;
        off ← read_zone zone;
        if (1 <=? m) && (m <=? 12) && (1 <=? d) && (d <=? days_in_month y m)
           && (h <=? 23) && (i <=? 59) && (sec <=? 59) then
          Some (mkDateTime
                  ((days_from_civil y m d * 86400 + h * 3600 + i * 60 + sec - off)
                   * 1000000) off)
        else None
      else None
  | _ => None
  end.

Definition digit_char (n : Z) : ascii := ascii_of_N (Z.to_N (48 + n mod 10)).

(** The last [width] decimal digits of [n]. *)
Fixpoint digits (width : nat) (n : Z) : string :=
  match width with
  | O => ""
  | S w => digits w (n / 10) +:+ String (digit_char n) ""
  end.

Definition write (d : DateTime) : string :=
  let local := epoch_us d + utcoffset d * 1000000 in
  let secs := local / 1000000 in
  let us := local mod 1000000 in
  let '(y, m, dd) := civil_from_days (secs / 86400) in
  let sod := secs mod 86400 in
  let off := Z.abs (utcoffset d) in
  digits 4 y +:+ "-" +:+ digits 2 m +:+ "-" +:+ digits 2 dd +:+ "T"
  +:+ digits 2 (sod / 3600) +:+ ":" +:+ digits 2 (sod mod 3600 / 60)
  +:+ ":" +:+ digits 2 (sod mod 60)
  +:+ (if us =? 0 then "" else "." +:+ digits 6 us)
  +:+ (if utcoffset d <? 0 then "-" else "+")
  +:+ digits 2 (off / 3600) +:+ ":" +:+ digits 2 (off mod 3600 / 60).

Definition pendulum : Pendulum := {| parse := read; DateTime_str := write |}.

End Iso8601.

(** ** A small remote API and image host for the worked examples *)
Module Sample.

(** Requests and entities are ad identifiers. Every request is answered
    at once; the identifiers divisible by seven are refused. The state
    counts the answers given. *)
Definition answer (request : Z) : Outcome :=
  if request mod 7 =? 0 then
    Failed {| resp_body := "(#100) no such creative " +:+ pretty request;
              resp_json := ∅ |}
  else
    Succeeded {| resp_body := "";
                 resp_json := {[ "id" := VInt request;
                                 "thumbnail_url" :=
                                   VStr ("https://img.example/" +:+ pretty request) ]} |}.

Definition api : FacebookApi :=
  {| FB := nat;
     Entity := Z;
     Request := Z;
     account_edge := fun edge params fields s =>
       (Ok match edge with get_ad_creatives => [1; 2; 3; 7] | _ => [] end, s);
     api_get_pending := fun entity fields => entity;
     api_get := fun entity fields s => (Ok {[ "id" := VInt entity ]}, S s);
     respond := fun request s => (answer request, S s) |}.

(** The same API under throttling: its first two answers are missing. *)
Definition throttled : FacebookApi :=
  {| FB := nat;
     Entity := Z;
     Request := Z;
     account_edge := fun edge params fields s => (Ok [], s);
     api_get_pending := fun entity fields => entity;
     api_get := fun entity fields s => (Ok {[ "id" := VInt entity ]}, S s);
     respond := fun request s =>
       (if (s <? 2)%nat then NoAnswer else answer request, S s) |}.

Definition three_pending : list (@Request throttled) := ([1; 2; 3] : list Z).

(** An API whose listing of ads is down and whose detail fetch of
    entity 3 fails. *)
Definition flaky : FacebookApi :=
  {| FB := nat;
     Entity := Z;
     Request := Z;
     account_edge := fun edge params fields s =>
       (match edge with
        | get_ads => Raise (TransportFault "(#17) User request limit reached")
        | _ => Ok [1; 2; 3; 4]
        end, S s);
     api_get_pending := fun entity fields => entity;
     api_get := fun entity fields s =>
       (if entity =? 3 then Raise (TransportFault "(#2) Service temporarily unavailable")
        else Ok {[ "id" := VInt entity ]}, S s);
     respond := fun request s => (answer request, S s) |}.

(** The API of the first example with another account: it lists the
    creatives 1, 4 and 2. *)
Definition second_account : FacebookApi :=
  {| FB := nat;
     Entity := Z;
     Request := Z;
     account_edge := fun edge params fields s =>
       (Ok match edge with get_ad_creatives => [1; 4; 2] | _ => [] end, s);
     api_get_pending := fun entity fields => entity;
     api_get := fun entity fields s => (Ok {[ "id" := VInt entity ]}, S s);
     respond := fun request s => (answer request, S s) |}.

(** The image of creative 1 is there, the one of creative 2 is not, the
    one of creative 4 comes without a content type, and no other address
    can be reached. The state counts the attempts. *)
Definition get (url : value) : GetResult :=
  match url with
  | VStr "https://img.example/1" =>
      Got {| status_code := 200;
             headers := {[ "content-type" := "image/png"%string ]};
             content := [Byte.x4d; Byte.x61; Byte.x6e] |}
  | VStr "https://img.example/2" =>
      Got {| status_code := 404; headers := ∅; content := [] |}
  | VStr "https://img.example/4" =>
      Got {| status_code := 200; headers := ∅; content := [Byte.x4d] |}
  | _ => RequestException "connection refused"
  end.

Definition requests : Requests :=
  {| Net := nat;
     requests_get := fun url n => (get url, S n) |}.


Definition five_pending : list (@Request api) := ([1; 7; 2; 14; 3] : list Z).

Definition pending_120 : list (@Request api) := (Z.of_nat <$> seq 1 120 : list Z).

Definition ad_creatives (fetch_thumbnail_images : bool) : AdCreatives :=
  AdCreatives__init__ ["id"; "thumbnail_url"; "thumbnail_data_url"]%string
    fetch_thumbnail_images false.

Definition world0 : @World api requests := mkWorld (0%nat : @FB api) (0%nat : @Net requests) [].



Definition world_throttled (answered : nat) (evs : list (@Event throttled))
  : @World throttled requests :=
  mkWorld (answered : @FB throttled) (0%nat : @Net requests) evs.

Definition world_flaky (calls : nat) (evs : list (@Event flaky)) : @World flaky requests :=
  mkWorld (calls : @FB flaky) (0%nat : @Net requests) evs.

Definition world_second (answered attempts : nat) (evs : list (@Event second_account))
  : @World second_account requests :=
  mkWorld (answered : @FB second_account) (attempts : @Net requests) evs.


Definition jan_2021 : DateTime := mkDateTime 1609459200000000 0.
Definition feb_2021 : DateTime := mkDateTime 1612137600000000 0.
Definition mar_2021 : DateTime := mkDateTime 1614556800000000 0.
Definition dec_2021 : DateTime := mkDateTime 1640908800000000 0.

(** The Campaigns stream from January 2021 on, with and without deleted
    records. *)
Definition campaigns (include_deleted : bool) : FBMarketingIncrementalStream :=
  Campaigns ["id"; "name"; "updated_time"]%string jan_2021 dec_2021 include_deleted.

Definition state_march (include_deleted : option bool) : dict :=
  let cursor : dict := {[ "updated_time" := VStr "2021-03-01T00:00:00+00:00" ]} in
  match include_deleted with
  | Some b => <["include_deleted" := VBool b]> cursor
  | None => cursor
  end.

Definition record_feb : dict :=
  {[ "id" := VStr "23846"; "updated_time" := VStr "2021-02-01T00:00:00+00:00" ]}.

Definition record_without_cursor : dict := {[ "id" := VStr "23846" ]}.

End Sample.

(** ** Vocabulary of the properties *)

(** The cursor value that a state records: an absent, [None] or empty
    entry records nothing. *)
Definition recorded_cursor (self : FBMarketingIncrementalStream) (state : dict)
  : option value :=
  match state !! cursor_field self with
  | Some v => if truthy v then Some v else None
  | None => None
  end.

(** The include-deleted override: the stream has [include_deleted]
    enabled and the prior state has it false or absent. *)
Definition override_fires (self : FBMarketingStream) (state : dict) : Prop :=
  _include_deleted self = true
  ∧ match state !! "include_deleted" with
    | Some v => truthy v = false
    | None => True
    end.

(** [d] is the later of [a] and [b]. *)
Definition chronological_max (a b d : DateTime) : Prop :=
  (d = a ∨ d = b) ∧ epoch_us d = Z.max (epoch_us a) (epoch_us b).

Section Observations.
Context `{FacebookApi} `{Requests}.

(** The records of the answers that went through [success], the bodies
    of those that went through [failure], and the requests left over. *)
Definition payloads (os : list Outcome) : list dict :=
  omap (fun o => match o with Succeeded r => Some (resp_json r) | _ => None end) os.

Definition failure_bodies (os : list Outcome) : list string :=
  omap (fun o => match o with Failed r => Some (resp_body r) | _ => None end) os.

Definition unanswered (answers : list (Request * Outcome)) : list Request :=
  omap (fun a => match a.2 with NoAnswer => Some a.1 | _ => None end) answers.

Definition warning_of (body : string) : Event :=
  EvLog WARNING ("Request failed with response: " +:+ body).

(** Projections of a trace. *)
Definition executed (evs : list Event) : list (list Request) :=
  omap (fun e => match e with EvExecute b => Some b | _ => None end) evs.

Definition yielded (evs : list Event) : list dict :=
  omap (fun e => match e with EvYield r => Some r | _ => None end) evs.

Definition logged (evs : list Event) : list (Level * string) :=
  omap (fun e => match e with EvLog l m => Some (l, m) | _ => None end) evs.

Definition is_log (e : Event) : bool :=
  match e with EvLog _ _ => true | _ => false end.

Definition without_log (evs : list Event) : list Event :=
  List.filter (fun e => negb (is_log e)) evs.

(** The world after more events. *)
Definition after (w : World) (s : FB) (n : Net) (evs : list Event) : World :=
  mkWorld s n (trace w ++ evs).

(** The events of a batch that settles in one execution: the execution,
    the warnings of its failures, the records of its successes. *)
Definition settled (batch : list Request) (os : list Outcome) : list Event :=
  EvExecute batch :: (warning_of <$> failure_bodies os) ++ (EvYield <$> payloads os).



(** The transport leaves no request of a batch without an answer. *)
Definition no_residue : Prop := ∀ (r : Request) (s : FB), (respond r s).1 ≠ NoAnswer.

(** The flush of a batch into the caller: [_execute_batch] followed by
    [yield from records]. *)
Definition flush (fuel : nat) (batch : list Request) (yield_ : dict → M ()) : M () :=
  records ← _execute_batch fuel batch [];
  for_each records yield_.

(** The successive windows of [n] elements of a list, the last one
    shorter when the length is no multiple of [n]; [k] bounds their
    number. *)
Fixpoint windows_upto {A} (k n : nat) (l : list A) : list (list A) :=
  match k with
  | O => []
  | S k' =>
      match l with
      | [] => []
      | _ :: _ => take n l :: windows_upto k' n (drop n l)
      end
  end.

(** The detail fetches of a stream that does not batch, one entity after
    the other up to the first that does not come back: the records
    loaded, how it ended, and the state of the API. *)
Fixpoint load_each (fields : list string) (entities : list Entity) (s : FB)
  : list dict * res () * FB :=
  match entities with
  | [] => ([], Ok (), s)
  | entity :: rest =>
      match api_get entity fields s with
      | (Ok loaded, s1) =>
          let '(ds, r, s2) := load_each fields rest s1 in (loaded :: ds, r, s2)
      | (Raise e, s1) => ([], Raise e, s1)
      | (OutOfFuel, s1) => ([], OutOfFuel, s1)
      end
  end.

End Observations.
(** A projection of a list built by mapping: element by element. *)
Ltac list_cases l :=
  let IH := fresh "IH" in
  induction l as [|? ? IH]; [reflexivity | csimpl; rewrite ?IH; reflexivity].

Example iso_read_2021 :
  Iso8601.read "2021-01-01T00:00:00Z" = Some (mkDateTime 1609459200000000 0).
Proof. vm_compute. reflexivity. Qed.

Example iso_read_facebook :
  Iso8601.read "2021-02-01T06:30:15-0800" = Some (mkDateTime 1612189815000000 (-28800)).
Proof. vm_compute. reflexivity. Qed.

Example iso_write_2021 :
  Iso8601.write (mkDateTime 1612189815000000 (-28800)) = "2021-02-01T06:30:15-08:00"%string.
Proof. vm_compute. reflexivity. Qed.

Example iso_read_rejects : Iso8601.read "yesterday" = None /\ Iso8601.read "" = None.
Proof. split; vm_compute; reflexivity. Qed.

Example b64encode_Man :
  b64encode [Byte.x4d; Byte.x61; Byte.x6e] = "TWFu"%string
  /\ b64encode [Byte.x4d; Byte.x61] = "TWE="%string
  /\ b64encode [Byte.x4d] = "TQ=="%string.
Proof. repeat split; vm_compute; reflexivity. Qed.

(** * Cursor state *)

Section CursorState.
Context `{Pendulum}.

Lemma override_fires_iff (self : FBMarketingStream) (state : dict) :
  potentially_new_records_in_the_past self state = true ↔ override_fires self state.
Proof.
  unfold potentially_new_records_in_the_past, override_fires, dict_get.
  rewrite andb_true_iff, negb_true_iff.
  destruct (state !! "include_deleted"); simpl; intuition.
Qed.

Lemma override_fires_dec (self : FBMarketingStream) (state : dict) :
  potentially_new_records_in_the_past self state = false ↔ ¬ override_fires self state.
Proof.
  rewrite <- override_fires_iff.
  destruct (potentially_new_records_in_the_past self state); intuition congruence.
Qed.

Lemma state_value_recorded (self : FBMarketingIncrementalStream) (state : dict) (rv : value) :
  py_or (dict_get state (cursor_field self) VNone) rv
  = default rv (recorded_cursor self state).
Proof.
  unfold py_or, dict_get, recorded_cursor.
  destruct (state !! cursor_field self) as [v|]; simpl; [|reflexivity].
  destruct (truthy v); reflexivity.
Qed.

Lemma py_max_chronological (a b : DateTime) : chronological_max a b (py_max a b).
Proof.
  unfold chronological_max, py_max, dt_gt.
  destruct (Z.ltb_spec (epoch_us a) (epoch_us b)); split; auto; lia.
Qed.

(** What [get_updated_state] returns once the record has a cursor value
    and both timestamps are read. *)
Lemma get_updated_state_run (self : FBMarketingIncrementalStream)
    (state record : dict) (rv : string) (dr dp : DateTime) :
  record !! cursor_field self = Some (VStr rv) →
  parse rv = Some dr →
  pendulum_parse (default (VStr rv) (recorded_cursor self state)) = Ok dp →
  get_updated_state self state record
  = Ok (<["include_deleted" := VBool (_include_deleted self)]>
          (<[cursor_field self :=
               VStr (if potentially_new_records_in_the_past self state
                     then rv else DateTime_str (py_max dp dr))]> ∅)).
Proof.
  intros Hrec Hrv Hprior.
  unfold get_updated_state, getitem. rewrite Hrec. simpl.
  rewrite state_value_recorded, Hprior. simpl. rewrite Hrv. simpl.
  destruct (potentially_new_records_in_the_past self state); reflexivity.
Qed.

(** A state is returned only for a record whose cursor value is text, so
    [py_str] is only applied to text. *)
Lemma get_updated_state_reads_text (self : FBMarketingIncrementalStream)
    (state record st : dict) :
  get_updated_state self state record = Ok st →
  ∃ rv : string, record !! cursor_field self = Some (VStr rv).
Proof.
  unfold get_updated_state, getitem.
  destruct (record !! cursor_field self) as [v|]; simpl; [|discriminate].
  destruct (pendulum_parse (py_or _ v)); simpl; try discriminate.
  destruct v; simpl; try discriminate. eauto.
Qed.

(** C10: a record without the cursor field makes [get_updated_state]
    raise a lookup error on that field, whatever the state; no state is
    returned. *)
Theorem get_updated_state_needs_cursor (self : FBMarketingIncrementalStream)
    (state record : dict) :
  record !! cursor_field self = None →
  get_updated_state self state record = Raise (KeyError (cursor_field self)).
Proof.
  intros Hrec. unfold get_updated_state, getitem. rewrite Hrec. reflexivity.
Qed.

(** C1: with a record whose cursor value reads as a timestamp and a
    prior cursor (the recorded one, or the record's own where the state
    records none) that reads as one, the returned state carries
    [include_deleted] as the stream has it now, and its cursor is the
    record's own text when the override fires and the text of the later
    of the two timestamps otherwise. *)
Theorem get_updated_state_cursor (self : FBMarketingIncrementalStream)
    (state record : dict) (rv : string) (dr dp : DateTime) :
  cursor_field self ≠ "include_deleted" →
  record !! cursor_field self = Some (VStr rv) →
  parse rv = Some dr →
  pendulum_parse (default (VStr rv) (recorded_cursor self state)) = Ok dp →
  ∃ (st : dict) (c : string),
    get_updated_state self state record = Ok st
    ∧ st !! "include_deleted" = Some (VBool (_include_deleted self))
    ∧ st !! cursor_field self = Some (VStr c)
    ∧ (override_fires self state → c = rv)
    ∧ (¬ override_fires self state →
       ∃ dmax, chronological_max dp dr dmax ∧ c = DateTime_str dmax).
Proof.
  intros Hne Hrec Hrv Hprior.
  eexists _, _. split; [exact (get_updated_state_run _ _ _ _ _ _ Hrec Hrv Hprior)|].
  split; [apply lookup_insert_eq|].
  split; [rewrite lookup_insert_ne by congruence; apply lookup_insert_eq|].
  split.
  - intros Hov. apply override_fires_iff in Hov. rewrite Hov. reflexivity.
  - intros Hov. apply override_fires_dec in Hov. rewrite Hov.
    exists (py_max dp dr). split; [apply py_max_chronological|reflexivity].
Qed.

(** C3: when the state records a cursor value [C] and the same
    [include_deleted] as the stream has now, and the record has a cursor
    value, the returned cursor is the text of a timestamp that is not
    before [C]. *)
Theorem get_updated_state_never_regresses (self : FBMarketingIncrementalStream)
    (state record : dict) (C rv : string) (dC dr : DateTime) :
  state !! cursor_field self = Some (VStr C) →
  C ≠ ""%string →
  parse C = Some dC →
  state !! "include_deleted" = Some (VBool (_include_deleted self)) →
  record !! cursor_field self = Some (VStr rv) →
  parse rv = Some dr →
  ∃ (st : dict) (d : DateTime),
    get_updated_state self state record = Ok st
    ∧ st !! cursor_field self = Some (VStr (DateTime_str d))
    ∧ epoch_us dC ≤ epoch_us d.
Proof.
  intros HC Hne HdC Hincl Hrec Hrv.
  assert (Hcf : cursor_field self ≠ "include_deleted") by (intros E; rewrite E in HC; congruence).
  assert (Hprior : recorded_cursor self state = Some (VStr C)).
  { unfold recorded_cursor. rewrite HC. simpl.
    destruct (String.eqb_spec C ""); [contradiction|reflexivity]. }
  assert (Hov : potentially_new_records_in_the_past self state = false).
  { unfold potentially_new_records_in_the_past, dict_get. rewrite Hincl. simpl.
    destruct (_include_deleted self); reflexivity. }
  exists (<["include_deleted" := VBool (_include_deleted self)]>
            (<[cursor_field self := VStr (DateTime_str (py_max dC dr))]> ∅)),
         (py_max dC dr).
  split.
  - rewrite (get_updated_state_run self state record rv dr dC Hrec Hrv).
    + rewrite Hov. reflexivity.
    + rewrite Hprior. simpl. rewrite HdC. reflexivity.
  - split.
    + rewrite lookup_insert_ne by congruence. apply lookup_insert_eq.
    + destruct (py_max_chronological dC dr) as [_ ->]. lia.
Qed.

(** C4, as the code has it: when the override fires, the cursor of the
    returned state is the text of the record's own cursor value; the
    start date plays no part in it. *)
Theorem get_updated_state_override_takes_record (self : FBMarketingIncrementalStream)
    (state record : dict) (rv : string) (dr dp : DateTime) :
  override_fires self state →
  cursor_field self ≠ "include_deleted" →
  record !! cursor_field self = Some (VStr rv) →
  parse rv = Some dr →
  pendulum_parse (default (VStr rv) (recorded_cursor self state)) = Ok dp →
  ∃ st : dict,
    get_updated_state self state record = Ok st
    ∧ st !! cursor_field self = Some (VStr rv).
Proof.
  intros Hov Hne Hrec Hrv Hprior.
  apply override_fires_iff in Hov.
  eexists. split; [exact (get_updated_state_run _ _ _ _ _ _ Hrec Hrv Hprior)|].
  rewrite Hov, lookup_insert_ne by congruence. apply lookup_insert_eq.
Qed.

End CursorState.

Section CursorStateExamples.
#[local] Existing Instance Iso8601.pendulum.

Lemma get_updated_state_needs_cursor_witness :
  Sample.record_without_cursor !! cursor_field (Sample.campaigns true) = None
  ∧ get_updated_state (Sample.campaigns true) (Sample.state_march None)
      Sample.record_without_cursor
    = Raise (KeyError "updated_time").
Proof.
  split; [reflexivity|].
  apply (get_updated_state_needs_cursor (Sample.campaigns true)). reflexivity.
Defined.

Lemma get_updated_state_cursor_witness :
  ∃ (st : dict) (c : string),
    get_updated_state (Sample.campaigns false) (Sample.state_march (Some false))
      Sample.record_feb = Ok st
    ∧ st !! "include_deleted" = Some (VBool false)
    ∧ st !! "updated_time" = Some (VStr c)
    ∧ (override_fires (Sample.campaigns false) (Sample.state_march (Some false)) →
       c = "2021-02-01T00:00:00+00:00"%string)
    ∧ (¬ override_fires (Sample.campaigns false) (Sample.state_march (Some false)) →
       ∃ dmax, chronological_max Sample.mar_2021 Sample.feb_2021 dmax
               ∧ c = DateTime_str dmax).
Proof.
  apply (get_updated_state_cursor (Sample.campaigns false)
           (Sample.state_march (Some false)) Sample.record_feb
           "2021-02-01T00:00:00+00:00" Sample.feb_2021 Sample.mar_2021).
  - vm_compute. discriminate.
  - reflexivity.
  - vm_compute. reflexivity.
  - vm_compute. reflexivity.
Defined.

Lemma get_updated_state_never_regresses_witness :
  ∃ (st : dict) (d : DateTime),
    get_updated_state (Sample.campaigns true) (Sample.state_march (Some true))
      Sample.record_feb = Ok st
    ∧ st !! "updated_time" = Some (VStr (DateTime_str d))
    ∧ epoch_us Sample.mar_2021 ≤ epoch_us d.
Proof.
  apply (get_updated_state_never_regresses (Sample.campaigns true)
           (Sample.state_march (Some true)) Sample.record_feb
           "2021-03-01T00:00:00+00:00" "2021-02-01T00:00:00+00:00"
           Sample.mar_2021 Sample.feb_2021).
  - reflexivity.
  - discriminate.
  - vm_compute. reflexivity.
  - reflexivity.
  - reflexivity.
  - vm_compute. reflexivity.
Defined.

Lemma get_updated_state_override_takes_record_witness :
  override_fires (Sample.campaigns true) (Sample.state_march (Some false))
  ∧ ∃ st : dict,
      get_updated_state (Sample.campaigns true) (Sample.state_march (Some false))
        Sample.record_feb = Ok st
      ∧ st !! "updated_time" = Some (VStr "2021-02-01T00:00:00+00:00").
Proof.
  assert (Hov : override_fires (Sample.campaigns true) (Sample.state_march (Some false)))
    by (split; reflexivity).
  split; [exact Hov|].
  apply (get_updated_state_override_takes_record (Sample.campaigns true)
           (Sample.state_march (Some false)) Sample.record_feb
           "2021-02-01T00:00:00+00:00" Sample.feb_2021 Sample.mar_2021).
  - exact Hov.
  - vm_compute. discriminate.
  - reflexivity.
  - vm_compute. reflexivity.
  - vm_compute. reflexivity.
Defined.

(** The cursor that comes back when the override fires is the one of the
    record, February, and not the configured start date, January. *)
Lemma get_updated_state_override_not_start_date :
  override_fires (Sample.campaigns true) (Sample.state_march None)
  ∧ ∃ (st : dict) (c : string) (d : DateTime),
      get_updated_state (Sample.campaigns true) (Sample.state_march None)
        Sample.record_feb = Ok st
      ∧ st !! cursor_field (Sample.campaigns true) = Some (VStr c)
      ∧ c ≠ DateTime_str (_start_date (Sample.campaigns true))
      ∧ parse c = Some d
      ∧ epoch_us d ≠ epoch_us (_start_date (Sample.campaigns true)).
Proof.
  split; [split; reflexivity|].
  exists (<["include_deleted" := VBool true]>
            {[ "updated_time" := VStr "2021-02-01T00:00:00+00:00" ]}),
         "2021-02-01T00:00:00+00:00"%string, Sample.feb_2021.
  split; [vm_compute; reflexivity|].
  split; [reflexivity|].
  split; [vm_compute; discriminate|].
  split; [vm_compute; reflexivity|].
  vm_compute. discriminate.
Qed.

End CursorStateExamples.

(** * Request parameters *)

Section RequestParams.
Context `{Pendulum} `{FacebookApi} `{Requests}.

Lemma base_params_limit (self : FBMarketingStream) :
  FBMarketingStream_request_params self !! "limit" = Some (VInt (page_size self)).
Proof.
  unfold FBMarketingStream_request_params, dict_update, _filter_all_statuses.
  destruct (_include_deleted self).
  - rewrite lookup_union_r by (apply lookup_singleton_ne; discriminate).
    apply lookup_singleton_eq.
  - apply lookup_singleton_eq.
Qed.

Lemma base_params_filtering (self : FBMarketingStream) :
  FBMarketingStream_request_params self !! "filtering"
  = if _include_deleted self
    then Some (VList [ filter_clause (fmt_prefix (entity_prefix self) +:+ ".delivery_info")
                         "IN" (VList (VStr <$> filt_values)) ])
    else None.
Proof.
  unfold FBMarketingStream_request_params, dict_update, _filter_all_statuses.
  destruct (_include_deleted self).
  - apply lookup_union_Some_l, lookup_singleton_eq.
  - apply lookup_singleton_ne. discriminate.
Qed.

Lemma deep_merge_None_r (a : value) : deep_merge a VNone = a.
Proof. destruct a; reflexivity. Qed.


(** A filter list of the state filter goes after the one of the base
    parameters, and the page size stays. *)
Lemma merged_limit (self : FBMarketingStream) (gt : value) (params : dict) :
  deep_merge (VDict (FBMarketingStream_request_params self))
    (VDict {[ "filtering" := VList [gt] ]}) = VDict params →
  params !! "limit" = Some (VInt (page_size self)).
Proof.
  simpl. intros [= <-]. rewrite lookup_merge, base_params_limit.
  rewrite lookup_singleton_ne by discriminate. reflexivity.
Qed.

Lemma merged_filtering (self : FBMarketingStream) (gt : value) (params : dict) :
  deep_merge (VDict (FBMarketingStream_request_params self))
    (VDict {[ "filtering" := VList [gt] ]}) = VDict params →
  params !! "filtering"
  = Some (VList ((if _include_deleted self
                  then [ filter_clause (fmt_prefix (entity_prefix self) +:+ ".delivery_info")
                           "IN" (VList (VStr <$> filt_values)) ]
                  else []) ++ [gt])).
Proof.
  simpl. intros [= <-]. rewrite lookup_merge, base_params_filtering, lookup_singleton_eq.
  destruct (_include_deleted self); reflexivity.
Qed.


(** C5: the base [request_params] always has [limit] at the page size,
    100 unless a class sets another; a stream built with [include_deleted]
    has the IN clause over the fourteen statuses on
    [prefix.delivery_info] exactly when its class supports deleted
    records, so AdCreatives never has it; and what the incremental
    [request_params] returns keeps the page size and the status clause. *)
Theorem request_params_limit_and_statuses :
  (∀ (c : StreamClass) (include_deleted : bool),
     let self := FBMarketingStream__init__ c include_deleted in
     FBMarketingStream_request_params self !! "limit" = Some (VInt (page_size c))
     ∧ FBMarketingStream_request_params self !! "filtering"
       = if enable_deleted c && include_deleted
         then Some (VList [ VDict {[ "field" :=
                                        VStr (fmt_prefix (entity_prefix c) +:+ ".delivery_info");
                                      "operator" := VStr "IN";
                                      "value" :=
                                        VList [ VStr "active"; VStr "archived";
                                                VStr "completed"; VStr "limited";
                                                VStr "not_delivering"; VStr "deleted";
                                                VStr "not_published"; VStr "pending_review";
                                                VStr "permanently_deleted";
                                                VStr "recently_completed";
                                                VStr "recently_rejected"; VStr "rejected";
                                                VStr "scheduled"; VStr "inactive" ] ]} ])
         else None)
  ∧ (∀ (nm : string) (schema : list string),
       page_size (FBMarketingStream_class nm schema) = 100)
  ∧ (∀ (schema : list string) (fetch_thumbnail_images include_deleted : bool),
       let self := AdCreatives__init__ schema fetch_thumbnail_images include_deleted in
       _include_deleted self = false
       ∧ FBMarketingStream_request_params self
         = ({[ "limit" := VInt 100 ]} : dict))
  ∧ (∀ (self : FBMarketingIncrementalStream) (stream_state : option dict)
       (w w' : World) (v : value),
       request_params self stream_state w = (Ok v, w') →
       ∃ (params : dict) (gt : value),
         v = VDict params
         ∧ params !! "limit" = Some (VInt (page_size self))
         ∧ params !! "filtering"
           = Some (VList ((if _include_deleted self
                           then [ filter_clause
                                    (fmt_prefix (entity_prefix self) +:+ ".delivery_info")
                                    "IN" (VList (VStr <$> filt_values)) ]
                           else []) ++ [gt]))).
Proof.
  split; [|split; [|split]].
  - intros c include_deleted self. split; [apply base_params_limit|].
    rewrite base_params_filtering. unfold self. simpl.
    destruct (enable_deleted c), include_deleted; reflexivity.
  - reflexivity.
  - intros schema f i self. split; [reflexivity|].
    unfold FBMarketingStream_request_params. reflexivity.
  - intros self stream_state w w' v Hrun.
    unfold request_params in Hrun. unfold mbind at 1, M_bind at 1 in Hrun.
    destruct (_state_filter self (state_or_empty stream_state) w) as [r w1] eqn:Hsf.
    assert (Hshape : ∀ sf, r = Ok sf → ∃ gt, sf = {[ "filtering" := VList [gt] ]}).
    { intros sf ->. revert Hsf. unfold _state_filter.
      unfold mbind, M_bind, mret, M_ret, lift_res, log, record_event.
      destruct (negb _); simpl.
      - destruct (potentially_new_records_in_the_past _ _); simpl;
          intros [= <- _]; eexists; reflexivity.
      - destruct (pendulum_parse _); simpl; try discriminate.
        destruct (potentially_new_records_in_the_past _ _); simpl;
          intros [= <- _]; eexists; reflexivity. }
    destruct r as [sf| |]; try discriminate.
    destruct (Hshape sf eq_refl) as [gt ->].
    injection Hrun as <- <-.
    eexists _, gt. split; [reflexivity|].
    split; [apply (merged_limit self gt _ eq_refl)|apply (merged_filtering self gt _ eq_refl)].
Qed.


End RequestParams.

Section RequestParamsExamples.
#[local] Existing Instance Iso8601.pendulum.
#[local] Existing Instance Sample.api.
#[local] Existing Instance Sample.requests.

(** Campaigns from 2021-01-01T00:00:00Z with an empty state. *)
Example request_params_campaigns_empty_state :
  parse "2021-01-01T00:00:00Z" = Some (_start_date (Sample.campaigns false))
  ∧ request_params (Sample.campaigns false) (Some ∅) Sample.world0
    = (Ok (VDict {[ "limit" := VInt 100;
                    "filtering" :=
                      VList [ VDict {[ "field" := VStr "campaign.updated_time";
                                       "operator" := VStr "GREATER_THAN";
                                       "value" := VInt 1609459200 ]} ] ]}),
       Sample.world0).
Proof. split; vm_compute; reflexivity. Qed.

(** Deleted records newly included: the recorded March cursor is passed
    over for the January start date, and a line is logged. *)
Example request_params_campaigns_override :
  request_params (Sample.campaigns true) (Some (Sample.state_march (Some false)))
    Sample.world0
  = (Ok (VDict {[ "limit" := VInt 100;
                  "filtering" :=
                    VList [ filter_clause "campaign.delivery_info" "IN"
                              (VList (VStr <$> filt_values));
                            filter_clause "campaign.updated_time" "GREATER_THAN"
                              (VInt 1609459200) ] ]}),
     mkWorld 0%nat 0%nat
       [ EvLog INFO
           "Ignoring bookmark for campaigns because of enabled `include_deleted` option" ]).
Proof. vm_compute. reflexivity. Qed.

(** A recorded cursor that is no timestamp is read before the override is
    looked at, and the reader's error comes out. *)
Example request_params_unreadable_cursor :
  request_params (Sample.campaigns true) (Some {[ "updated_time" := VStr "last week" ]})
    Sample.world0
  = (Raise (ParserError "last week"), Sample.world0).
Proof. vm_compute. reflexivity. Qed.


Lemma request_params_limit_and_statuses_witness :
  ∃ (params : dict) (gt : value),
    VDict (<["filtering" :=
               VList [ filter_clause "campaign.delivery_info" "IN"
                         (VList (VStr <$> filt_values));
                       filter_clause "campaign.updated_time" "GREATER_THAN"
                         (VInt 1614556800) ]]> {[ "limit" := VInt 100 ]})
    = VDict params
    ∧ params !! "limit" = Some (VInt 100)
    ∧ params !! "filtering"
      = Some (VList ([ filter_clause "campaign.delivery_info" "IN"
                         (VList (VStr <$> filt_values)) ] ++ [gt])).
Proof.
  apply (proj2 (proj2 (proj2 request_params_limit_and_statuses))
           (Sample.campaigns true) (Some (Sample.state_march (Some true)))
           Sample.world0 Sample.world0).
  vm_compute. reflexivity.
Defined.


End RequestParamsExamples.

(** * Batched execution *)

Section Batches.
Context `{Pendulum} `{FacebookApi} `{Requests}.

Lemma after_nil (w : World) : after w (fb w) (net w) [] = w.
Proof. destruct w. unfold after. simpl. rewrite app_nil_r. reflexivity. Qed.

Lemma after_after (w : World) s1 n1 e1 s2 n2 e2 :
  after (after w s1 n1 e1) s2 n2 e2 = after w s2 n2 (e1 ++ e2).
Proof. unfold after. simpl. rewrite app_assoc. reflexivity. Qed.

Lemma record_event_run (e : Event) (w : World) :
  record_event e w = (Ok (), after w (fb w) (net w) [e]).
Proof. reflexivity. Qed.

Lemma for_each_emit (records : list dict) (w : World) :
  for_each records emit w = (Ok (), after w (fb w) (net w) (EvYield <$> records)).
Proof.
  revert w. induction records as [|r records IH]; intros w; simpl.
  - rewrite after_nil. reflexivity.
  - unfold mbind, M_bind, emit. rewrite record_event_run, IH, after_after. reflexivity.
Qed.

Lemma send_length (batch : list Request) (s : FB) :
  length (send batch s).1 = length batch.
Proof.
  revert s. induction batch as [|r batch IH]; intros s; simpl; [reflexivity|].
  destruct (respond r s) as [o s1]. specialize (IH s1).
  destruct (send batch s1) as [os s2]. simpl in *. congruence.
Qed.

Lemma send_app (a b : list Request) (s : FB) :
  send (a ++ b) s
  = ((send a s).1 ++ (send b (send a s).2).1, (send b (send a s).2).2).
Proof.
  revert s. induction a as [|r a IH]; intros s; simpl.
  - destruct (send b s). reflexivity.
  - destruct (respond r s) as [o s1]. rewrite IH.
    destruct (send a s1) as [os s2]. reflexivity.
Qed.

(** One execution, whatever the transport answers: the records of the
    successes are appended, each failure leaves a warning and nothing
    else, and the requests without an answer are handed back. *)
Lemma dispatch_run (answers : list (Request * Outcome)) (records : list dict) (w : World) :
  dispatch answers records w
  = (Ok (unanswered answers, records ++ payloads answers.*2),
     after w (fb w) (net w) (warning_of <$> failure_bodies answers.*2)).
Proof.
  revert records w. induction answers as [|[r o] answers IH]; intros records w; simpl.
  - rewrite app_nil_r, after_nil. reflexivity.
  - destruct o as [resp|resp|]; simpl.
    + unfold mbind, M_bind, success. simpl. rewrite IH, <- app_assoc. reflexivity.
    + unfold mbind at 1, M_bind at 1, failure. unfold mbind at 1, M_bind at 1, log.
      rewrite record_event_run. unfold mret at 1, M_ret at 1.
      rewrite IH, after_after. reflexivity.
    + unfold mbind, M_bind. rewrite IH. reflexivity.
Qed.

Lemma no_residue_unanswered (batch : list Request) (s : FB) :
  no_residue → unanswered (zip batch (send batch s).1) = [].
Proof.
  intros Hno. revert s. induction batch as [|r batch IH]; intros s; simpl; [reflexivity|].
  pose proof (Hno r s) as Hr. destruct (respond r s) as [o s1]. specialize (IH s1).
  destruct (send batch s1) as [os s2]. simpl in *.
  unfold unanswered in *. simpl. destruct o; simpl; auto; contradiction.
Qed.

(** A batch that is answered in full settles in one execution. *)
Lemma _execute_batch_settles (fuel : nat) (batch : list Request) (records : list dict)
    (w : World) :
  no_residue → batch ≠ [] →
  _execute_batch (S fuel) batch records w
  = (Ok (records ++ payloads (send batch (fb w)).1),
     after w (send batch (fb w)).2 (net w)
       (EvExecute batch :: (warning_of <$> failure_bodies (send batch (fb w)).1))).
Proof.
  intros Hno Hne. destruct batch as [|r rest]; [contradiction|].
  set (batch := r :: rest) in *.
  change (_execute_batch (S fuel) batch records)
    with ('(batch', records') ← batch_execute batch records;
          (match batch' with
           | [] => mret ()
           | _ :: _ => log INFO "Retry failed requests in batch"
           end);;
          _execute_batch fuel batch' records').
  unfold mbind at 1, M_bind at 1.
  assert (Hexec : batch_execute batch records w
                  = (Ok ([], records ++ payloads (send batch (fb w)).1),
                     after w (send batch (fb w)).2 (net w)
                       (EvExecute batch
                        :: (warning_of <$> failure_bodies (send batch (fb w)).1)))).
  { unfold batch_execute. unfold mbind at 1, M_bind at 1. rewrite record_event_run.
    unfold mbind at 1, M_bind at 1, on_fb. simpl fb.
    pose proof (send_length batch (fb w)) as Hlen.
    pose proof (no_residue_unanswered batch (fb w) Hno) as Hun.
    destruct (send batch (fb w)) as [os s']. cbn [fst snd] in *.
    rewrite dispatch_run, Hun, snd_zip by lia.
    unfold after. simpl. rewrite <- app_assoc. reflexivity. }
  rewrite Hexec. simpl. unfold mbind, M_bind, mret, M_ret. simpl.
  destruct fuel; reflexivity.
Qed.

Lemma flush_emit (fuel : nat) (batch : list Request) (w : World) :
  no_residue → batch ≠ [] →
  flush (S fuel) batch emit w
  = (Ok (), after w (send batch (fb w)).2 (net w)
              (settled batch (send batch (fb w)).1)).
Proof.
  intros Hno Hne. unfold flush, mbind, M_bind.
  rewrite _execute_batch_settles by assumption. simpl.
  rewrite for_each_emit, after_after. reflexivity.
Qed.

Lemma flush_empty (fuel : nat) (yield_ : dict → M ()) (w : World) :
  flush fuel [] yield_ w = (Ok (), w).
Proof. destruct fuel; reflexivity. Qed.

(** How the loop cuts the requests: as long as the batch stays below the
    maximum nothing runs, and the request that fills it triggers a flush
    and a fresh batch. *)
Lemma execute_in_batch_from_short (self : FBMarketingStream) (fuel : nat)
    (pending api_batch : list Request) (yield_ : dict → M ()) :
  (length api_batch + length pending < MAX_BATCH_SIZE self)%nat →
  execute_in_batch_from self fuel pending api_batch [] yield_
  = flush fuel (api_batch ++ pending) yield_.
Proof.
  revert api_batch. induction pending as [|r pending IH]; intros api_batch Hlen; simpl.
  - rewrite app_nil_r. reflexivity.
  - simpl in Hlen. rewrite length_app. simpl.
    destruct (Nat.eqb_spec (length api_batch + 1) (MAX_BATCH_SIZE self)) as [E|_]; [lia|].
    rewrite IH by (rewrite length_app; simpl; lia).
    rewrite <- app_assoc. reflexivity.
Qed.

Lemma execute_in_batch_from_cons (self : FBMarketingStream) (fuel : nat)
    (r : Request) (pending api_batch : list Request) (yield_ : dict → M ()) (w : World) :
  execute_in_batch_from self fuel (r :: pending) api_batch [] yield_ w
  = if Nat.eqb (length (api_batch ++ [r])) (MAX_BATCH_SIZE self)
    then (flush fuel (api_batch ++ [r]) yield_;;
          execute_in_batch_from self fuel pending [] [] yield_) w
    else execute_in_batch_from self fuel pending (api_batch ++ [r]) [] yield_ w.
Proof.
  simpl. destruct (Nat.eqb _ _); [|reflexivity].
  unfold flush, mbind, M_bind.
  destruct (_execute_batch fuel (api_batch ++ [r]) [] w) as [[rs| |] w1]; reflexivity.
Qed.

Lemma execute_in_batch_from_full (self : FBMarketingStream) (fuel : nat)
    (p1 p2 api_batch : list Request) (yield_ : dict → M ()) (w : World) :
  p1 ≠ [] →
  (length api_batch + length p1 = MAX_BATCH_SIZE self)%nat →
  execute_in_batch_from self fuel (p1 ++ p2) api_batch [] yield_ w
  = (flush fuel (api_batch ++ p1) yield_;;
     execute_in_batch_from self fuel p2 [] [] yield_) w.
Proof.
  revert api_batch. induction p1 as [|r p1 IH]; intros api_batch Hne Hlen; [contradiction|].
  simpl. simpl in Hlen. rewrite length_app. simpl.
  destruct (Nat.eqb_spec (length api_batch + 1) (MAX_BATCH_SIZE self)) as [E|E].
  - assert (p1 = []) as -> by (destruct p1; [reflexivity|simpl in Hlen; lia]).
    simpl. unfold flush, mbind, M_bind.
    destruct (_execute_batch fuel (api_batch ++ [r]) [] w) as [[rs| |] w1]; try reflexivity.
  - assert (p1 ≠ []) by (intros ->; simpl in Hlen; lia).
    rewrite IH by (try assumption; rewrite length_app; simpl; lia).
    rewrite <- app_assoc. reflexivity.
Qed.

Lemma executed_settled (batch : list Request) (os : list Outcome) :
  executed (settled batch os) = [batch].
Proof.
  unfold executed, settled. simpl. f_equal. rewrite omap_app.
  assert (E1 : ∀ l : list string, omap (λ e, match e with EvExecute b => Some b | _ => None end)
                      (warning_of <$> l) = []) by list_cases l.
  assert (E2 : ∀ l, omap (λ e, match e with EvExecute b => Some b | _ => None end)
                      (EvYield <$> l) = []) by list_cases l.
  rewrite E1, E2. reflexivity.
Qed.

Lemma yielded_settled (batch : list Request) (os : list Outcome) :
  yielded (settled batch os) = payloads os.
Proof.
  unfold yielded, settled. simpl. rewrite omap_app.
  assert (E1 : ∀ l : list string, omap (λ e, match e with EvYield r => Some r | _ => None end)
                      (warning_of <$> l) = []) by list_cases l.
  assert (E2 : ∀ l : list dict,
             omap (λ e, match e with EvYield r => Some r | _ => None end)
               (EvYield <$> l) = l) by list_cases l.
  rewrite E1, E2. reflexivity.
Qed.

Lemma logged_settled (batch : list Request) (os : list Outcome) :
  logged (settled batch os)
  = (λ body, (WARNING, "Request failed with response: " +:+ body)) <$> failure_bodies os.
Proof.
  unfold logged, settled. simpl. rewrite omap_app.
  assert (E1 : ∀ l : list string, omap (λ e, match e with EvLog lv m => Some (lv, m) | _ => None end)
                      (warning_of <$> l)
                    = (λ body, (WARNING, "Request failed with response: " +:+ body)) <$> l)
    by list_cases l.
  assert (E2 : ∀ l : list dict,
             omap (λ e, match e with EvLog lv m => Some (lv, m) | _ => None end)
               (EvYield <$> l) = []) by list_cases l.
  rewrite E1, E2, app_nil_r. reflexivity.
Qed.

Lemma without_log_settled (batch : list Request) (os : list Outcome) :
  without_log (settled batch os) = EvExecute batch :: (EvYield <$> payloads os).
Proof.
  unfold without_log, settled. simpl. f_equal. rewrite List.filter_app.
  assert (E1 : ∀ l : list string, List.filter (λ e, negb (is_log e)) (warning_of <$> l) = [])
    by list_cases l.
  assert (E2 : ∀ l : list dict,
             List.filter (λ e, negb (is_log e)) (EvYield <$> l) = EvYield <$> l)
    by list_cases l.
  rewrite E1, E2. reflexivity.
Qed.

Lemma executed_app (a b : list Event) : executed (a ++ b) = executed a ++ executed b.
Proof. apply omap_app. Qed.

Lemma yielded_app (a b : list Event) : yielded (a ++ b) = yielded a ++ yielded b.
Proof. apply omap_app. Qed.

Lemma logged_app (a b : list Event) : logged (a ++ b) = logged a ++ logged b.
Proof. apply omap_app. Qed.

Lemma payloads_app (a b : list Outcome) : payloads (a ++ b) = payloads a ++ payloads b.
Proof. apply omap_app. Qed.

Lemma failure_bodies_app (a b : list Outcome) :
  failure_bodies (a ++ b) = failure_bodies a ++ failure_bodies b.
Proof. apply omap_app. Qed.

(** With a transport that answers everything, the loop started on any
    batch in progress runs to its end: nothing is raised, the records
    given to the caller are those of the successes, the log has a warning
    for each failure, and every request was executed once. *)
Lemma execute_in_batch_from_emit (self : FBMarketingStream) (fuel : nat) :
  no_residue →
  ∀ (pending api_batch : list Request) (w : World),
    let sent := send (api_batch ++ pending) (fb w) in
    ∃ evs : list Event,
      execute_in_batch_from self (S fuel) pending api_batch [] emit w
      = (Ok (), after w sent.2 (net w) evs)
      ∧ yielded evs = payloads sent.1
      ∧ logged evs
        = (λ body, (WARNING, "Request failed with response: " +:+ body))
          <$> failure_bodies sent.1
      ∧ concat (executed evs) = api_batch ++ pending.
Proof.
  intros Hno. induction pending as [|r pending IH]; intros api_batch w sent.
  - unfold sent. rewrite app_nil_r.
    change (execute_in_batch_from self (S fuel) [] api_batch [] emit)
      with (flush (S fuel) api_batch emit).
    destruct api_batch as [|r0 api_batch].
    + exists []. rewrite flush_empty. simpl. rewrite after_nil. auto.
    + exists (settled (r0 :: api_batch) (send (r0 :: api_batch) (fb w)).1).
      rewrite flush_emit by (auto; discriminate).
      rewrite yielded_settled, logged_settled, executed_settled. simpl.
      rewrite app_nil_r. auto.
  - assert (Hassoc : api_batch ++ r :: pending = (api_batch ++ [r]) ++ pending)
      by (rewrite <- app_assoc; reflexivity).
    unfold sent. rewrite Hassoc, execute_in_batch_from_cons.
    destruct (Nat.eqb (length (api_batch ++ [r])) (MAX_BATCH_SIZE self)).
    + set (b := api_batch ++ [r]).
      assert (Hb : b ≠ []) by (unfold b; destruct api_batch; discriminate).
      unfold mbind at 1, M_bind at 1. rewrite (flush_emit fuel b w Hno Hb).
      set (w1 := after w (send b (fb w)).2 (net w) (settled b (send b (fb w)).1)).
      destruct (IH [] w1) as (evs & Hrun & Hy & Hl & He). simpl in Hrun, Hy, Hl, He.
      exists (settled b (send b (fb w)).1 ++ evs).
      rewrite send_app. cbn [fst snd].
      split; [|split; [|split]].
      * rewrite Hrun. unfold w1. rewrite after_after. reflexivity.
      * rewrite yielded_app, yielded_settled, payloads_app, Hy. reflexivity.
      * rewrite logged_app, logged_settled, failure_bodies_app, fmap_app, Hl. reflexivity.
      * rewrite executed_app, executed_settled, concat_app, He. simpl.
        rewrite app_nil_r. reflexivity.
    + apply IH.
Qed.

Lemma no_residue_all_settle (reqs : list Request) (s : FB) :
  no_residue →
  (length (payloads (send reqs s).1) + length (failure_bodies (send reqs s).1))%nat
  = length reqs.
Proof.
  intros Hno. revert s. induction reqs as [|r reqs IH]; intros s; simpl; [reflexivity|].
  pose proof (Hno r s) as Hr. destruct (respond r s) as [o s1]. specialize (IH s1).
  destruct (send reqs s1) as [os s2]. cbn [fst snd] in *.
  destruct o; simpl; try contradiction; unfold payloads, failure_bodies in *; lia.
Qed.

(** C6: 120 pending requests, a maximum of 50 and a transport that
    answers every request give three executions, of the first 50, the
    next 50 and the last 20 requests; the records handed to the caller
    are the successes of the first batch, then of the second, then of the
    third, each group after the execution of its batch and before the
    execution of the next. *)
Theorem execute_in_batch_120 (self : FBMarketingStream) (fuel : nat)
    (reqs : list Request) (w : World) :
  MAX_BATCH_SIZE self = 50%nat →
  length reqs = 120%nat →
  (0 < fuel)%nat →
  no_residue →
  let b1 := take 50 reqs in
  let b2 := take 50 (drop 50 reqs) in
  let b3 := drop 100 reqs in
  let r1 := send b1 (fb w) in
  let r2 := send b2 r1.2 in
  let r3 := send b3 r2.2 in
  ∃ evs : list Event,
    execute_in_batch self fuel reqs emit w = (Ok (), after w r3.2 (net w) evs)
    ∧ executed evs = [b1; b2; b3]
    ∧ length <$> executed evs = [50; 50; 20]%nat
    ∧ yielded evs = payloads r1.1 ++ payloads r2.1 ++ payloads r3.1
    ∧ without_log evs
      = EvExecute b1 :: (EvYield <$> payloads r1.1)
        ++ EvExecute b2 :: (EvYield <$> payloads r2.1)
        ++ EvExecute b3 :: (EvYield <$> payloads r3.1).
Proof.
  intros Hmax Hlen Hfuel Hno b1 b2 b3 r1 r2 r3.
  destruct fuel as [|fuel]; [lia|].
  assert (Hl1 : length b1 = 50%nat) by (unfold b1; rewrite length_take; lia).
  assert (Hl2 : length b2 = 50%nat)
    by (unfold b2; rewrite length_take, length_drop; lia).
  assert (Hl3 : length b3 = 20%nat) by (unfold b3; rewrite length_drop; lia).
  assert (Hsplit : reqs = b1 ++ b2 ++ b3).
  { unfold b1, b2, b3.
    replace (drop 100 reqs) with (drop 50 (drop 50 reqs)) by (rewrite drop_drop; reflexivity).
    rewrite (take_drop 50 (drop 50 reqs)), take_drop. reflexivity. }
  assert (Hn1 : b1 ≠ []) by (intros E; rewrite E in Hl1; discriminate).
  assert (Hn2 : b2 ≠ []) by (intros E; rewrite E in Hl2; discriminate).
  assert (Hn3 : b3 ≠ []) by (intros E; rewrite E in Hl3; discriminate).
  exists (settled b1 r1.1 ++ settled b2 r2.1 ++ settled b3 r3.1).
  split.
  - unfold execute_in_batch. rewrite Hsplit.
    rewrite (execute_in_batch_from_full self (S fuel) b1 (b2 ++ b3) [] emit w Hn1)
      by (simpl; lia).
    unfold mbind at 1, M_bind at 1. simpl app. rewrite (flush_emit fuel b1 w Hno Hn1).
    fold r1.
    set (w1 := after w r1.2 (net w) (settled b1 r1.1)).
    rewrite (execute_in_batch_from_full self (S fuel) b2 b3 [] emit w1 Hn2)
      by (simpl; lia).
    unfold mbind at 1, M_bind at 1. simpl app. rewrite (flush_emit fuel b2 w1 Hno Hn2).
    change (fb w1) with r1.2. change (net w1) with (net w). fold r2.
    set (w2 := after w1 r2.2 (net w) (settled b2 r2.1)).
    rewrite (execute_in_batch_from_short self (S fuel) b3 [] emit) by (simpl; lia).
    simpl app. rewrite (flush_emit fuel b3 w2 Hno Hn3).
    change (fb w2) with r2.2. change (net w2) with (net w). fold r3.
    unfold w2, w1. rewrite !after_after. reflexivity.
  - rewrite !executed_app, !yielded_app, !executed_settled, !yielded_settled.
    split; [reflexivity|].
    split; [simpl; rewrite Hl1, Hl2, Hl3; reflexivity|].
    split; [reflexivity|].
    unfold without_log. rewrite !List.filter_app.
    fold (without_log (settled b1 r1.1)). fold (without_log (settled b2 r2.1)).
    fold (without_log (settled b3 r3.1)).
    rewrite !without_log_settled. reflexivity.
Qed.

(** C7: the failure callback only writes a warning and leaves the
    records as they are; in one execution, whatever the transport
    answers, the records grow by the successes alone; and with a
    transport that answers every request, [execute_in_batch] ends without
    an error, hands the caller the records of the successes only, and
    logs one warning per failed request and nothing else. *)
Theorem failed_requests_are_dropped :
  (∀ (response : Response) (records : list dict) (w : World),
     failure response records w
     = (Ok records, after w (fb w) (net w) [warning_of (resp_body response)]))
  ∧ (∀ (answers : list (Request * Outcome)) (records : list dict) (w : World),
       dispatch answers records w
       = (Ok (unanswered answers, records ++ payloads answers.*2),
          after w (fb w) (net w) (warning_of <$> failure_bodies answers.*2)))
  ∧ (∀ (self : FBMarketingStream) (fuel : nat) (reqs : list Request) (w : World),
       no_residue →
       (0 < fuel)%nat →
       let sent := send reqs (fb w) in
       ∃ evs : list Event,
         execute_in_batch self fuel reqs emit w = (Ok (), after w sent.2 (net w) evs)
         ∧ yielded evs = payloads sent.1
         ∧ logged evs
           = (λ body, (WARNING, "Request failed with response: " +:+ body))
             <$> failure_bodies sent.1
         ∧ concat (executed evs) = reqs
         ∧ (length (yielded evs) + length (logged evs))%nat = length reqs).
Proof.
  split; [|split].
  - intros response records w. reflexivity.
  - apply dispatch_run.
  - intros self fuel reqs w Hno Hfuel sent.
    destruct fuel as [|fuel]; [lia|].
    destruct (execute_in_batch_from_emit self fuel Hno reqs [] w)
      as (evs & Hrun & Hy & Hl & He).
    simpl in Hrun, Hy, Hl, He.
    exists evs. repeat split; try assumption.
    rewrite Hy, Hl, length_fmap. apply no_residue_all_settle, Hno.
Qed.

End Batches.

Section BatchesExamples.
#[local] Existing Instance Sample.api.
#[local] Existing Instance Sample.requests.

Lemma sample_no_residue : no_residue.
Proof.
  intros r s. simpl. unfold Sample.answer. destruct (r mod 7 =? 0); discriminate.
Qed.

(** Five requests of which two are refused: three records, two warnings,
    one execution. *)
Example execute_in_batch_with_failures :
  execute_in_batch (Sample.ad_creatives false) 1 Sample.five_pending emit
    Sample.world0
  = (Ok (),
     mkWorld 5%nat 0%nat
       [ EvExecute Sample.five_pending;
         EvLog WARNING "Request failed with response: (#100) no such creative 7";
         EvLog WARNING "Request failed with response: (#100) no such creative 14";
         EvYield {[ "id" := VInt 1; "thumbnail_url" := VStr "https://img.example/1" ]};
         EvYield {[ "id" := VInt 2; "thumbnail_url" := VStr "https://img.example/2" ]};
         EvYield {[ "id" := VInt 3; "thumbnail_url" := VStr "https://img.example/3" ]} ]).
Proof. vm_compute. reflexivity. Qed.

Lemma failed_requests_are_dropped_witness :
  let sent := send Sample.five_pending (fb Sample.world0) in
  ∃ evs : list Event,
    execute_in_batch (Sample.ad_creatives false) 1 Sample.five_pending emit
      Sample.world0
    = (Ok (), after Sample.world0 sent.2 (net Sample.world0) evs)
    ∧ yielded evs = payloads sent.1
    ∧ logged evs
      = (λ body, (WARNING, "Request failed with response: " +:+ body))
        <$> failure_bodies sent.1
    ∧ concat (executed evs) = Sample.five_pending
    ∧ (length (yielded evs) + length (logged evs))%nat = 5%nat.
Proof.
  apply (proj2 (proj2 failed_requests_are_dropped)
           (Sample.ad_creatives false) 1%nat Sample.five_pending Sample.world0).
  - exact sample_no_residue.
  - lia.
Defined.

Lemma execute_in_batch_120_witness :
  let reqs := Sample.pending_120 in
  let r1 := send (take 50 reqs) (fb Sample.world0) in
  let r2 := send (take 50 (drop 50 reqs)) r1.2 in
  let r3 := send (drop 100 reqs) r2.2 in
  ∃ evs : list Event,
    execute_in_batch (Sample.ad_creatives false) 1 reqs emit Sample.world0
    = (Ok (), after Sample.world0 r3.2 (net Sample.world0) evs)
    ∧ executed evs = [take 50 reqs; take 50 (drop 50 reqs); drop 100 reqs]
    ∧ length <$> executed evs = [50; 50; 20]%nat
    ∧ yielded evs = payloads r1.1 ++ payloads r2.1 ++ payloads r3.1
    ∧ without_log evs
      = EvExecute (take 50 reqs) :: (EvYield <$> payloads r1.1)
        ++ EvExecute (take 50 (drop 50 reqs)) :: (EvYield <$> payloads r2.1)
        ++ EvExecute (drop 100 reqs) :: (EvYield <$> payloads r3.1).
Proof.
  apply (execute_in_batch_120 (Sample.ad_creatives false) 1%nat
           Sample.pending_120 Sample.world0).
  - reflexivity.
  - reflexivity.
  - lia.
  - exact sample_no_residue.
Defined.

End BatchesExamples.

Section RetryExamples.
#[local] Existing Instance Sample.throttled.
#[local] Existing Instance Sample.requests.

(** Under throttling the two requests left without an answer are run
    again, and the records come in the order the answers came. With fuel
    for one execution only, the loop does not finish. *)
Example execute_in_batch_retries :
  execute_in_batch (Sample.ad_creatives false) 2 Sample.three_pending emit
    (Sample.world_throttled 0 [])
  = (Ok (),
     Sample.world_throttled 5
       [ EvExecute Sample.three_pending;
         EvLog INFO "Retry failed requests in batch";
         EvExecute (take 2 Sample.three_pending);
         EvYield {[ "id" := VInt 3; "thumbnail_url" := VStr "https://img.example/3" ]};
         EvYield {[ "id" := VInt 1; "thumbnail_url" := VStr "https://img.example/1" ]};
         EvYield {[ "id" := VInt 2; "thumbnail_url" := VStr "https://img.example/2" ]} ])
  ∧ (execute_in_batch (Sample.ad_creatives false) 1 Sample.three_pending emit
       (Sample.world_throttled 0 [])).1
    = OutOfFuel.
Proof. split; vm_compute; reflexivity. Qed.

End RetryExamples.

(** * Thumbnails *)

Section Thumbnails.
Context `{Pendulum} `{FacebookApi} `{Requests}.









End Thumbnails.

Section ThumbnailsExamples.
#[local] Existing Instance Iso8601.pendulum.
#[local] Existing Instance Sample.api.


(** Four creatives are listed and fetched in one batch; the fourth is
    refused. Of the three records, the first gets its image, the second
    meets a 404 and the third an unreachable host. *)
Example AdCreatives_read_records_run :
  let '(r, w) :=
    @AdCreatives_read_records Sample.api Sample.requests
      (Sample.ad_creatives true) 1 emit Sample.world0 in
  r = Ok ()
  ∧ executed (trace w) = [[1; 2; 3; 7]]
  ∧ yielded (trace w)
    = [ {[ "id" := VInt 1; "thumbnail_url" := VStr "https://img.example/1";
           "thumbnail_data_url" := VStr "data:image/png;base64,TWFu" ]};
        {[ "id" := VInt 2; "thumbnail_url" := VStr "https://img.example/2";
           "thumbnail_data_url" := VNone ]};
        {[ "id" := VInt 3; "thumbnail_url" := VStr "https://img.example/3";
           "thumbnail_data_url" := VNone ]} ]
  ∧ logged (trace w)
    = [ (WARNING, "Request failed with response: (#100) no such creative 7");
        (WARNING, "Got <Response [404]> while requesting thumbnail image.");
        (WARNING, "Got connection refused while requesting thumbnail image.") ]%string.
Proof. vm_compute. repeat split; reflexivity. Qed.

(** A 200 answer without a content type is neither of the cases above:
    the lookup of the header raises. *)
Example fetch_thumbnail_without_content_type :
  (@fetch_thumbnail_data_url Sample.api Sample.requests
     (VStr "https://img.example/4") Sample.world0).1
  = Raise (KeyError "content-type").
Proof. vm_compute. reflexivity. Qed.


End ThumbnailsExamples.

(** * Further properties of the cursor state *)

Section CursorStateMore.
Context `{Pendulum}.

(** What a returned state came from. *)
Lemma get_updated_state_inv (self : FBMarketingIncrementalStream)
    (state record st : dict) :
  get_updated_state self state record = Ok st →
  ∃ (rv : string) (dr dp : DateTime),
    record !! cursor_field self = Some (VStr rv)
    ∧ parse rv = Some dr
    ∧ pendulum_parse (default (VStr rv) (recorded_cursor self state)) = Ok dp
    ∧ st = <["include_deleted" := VBool (_include_deleted self)]>
             (<[cursor_field self :=
                  VStr (if potentially_new_records_in_the_past self state
                        then rv else DateTime_str (py_max dp dr))]> ∅).
Proof.
  intros Hst. destruct (get_updated_state_reads_text _ _ _ _ Hst) as [rv Hrec].
  pose proof Hst as Hrun. revert Hrun.
  unfold get_updated_state, getitem. rewrite Hrec. simpl.
  rewrite state_value_recorded.
  destruct (pendulum_parse (default (VStr rv) (recorded_cursor self state)))
    as [dp| |] eqn:Hprior; simpl; try discriminate.
  destruct (parse rv) as [dr|] eqn:Hrv; simpl; try discriminate.
  intros _. exists rv, dr, dp. repeat split; try assumption.
  rewrite (get_updated_state_run _ _ _ _ _ _ Hrec Hrv Hprior) in Hst.
  injection Hst as <-. reflexivity.
Qed.

Lemma returned_state_no_override (self : FBMarketingIncrementalStream)
    (state record st : dict) :
  get_updated_state self state record = Ok st →
  potentially_new_records_in_the_past self st = false.
Proof.
  intros Hst. destruct (get_updated_state_inv _ _ _ _ Hst) as (rv & dr & dp & _ & _ & _ & ->).
  unfold potentially_new_records_in_the_past, dict_get. rewrite lookup_insert_eq. simpl.
  destruct (_include_deleted self); reflexivity.
Qed.

(** When the record has a cursor value, an error of reading the prior
    cursor comes out of [get_updated_state], and so does an error of
    reading the record's cursor once the prior one is read; the first
    goes before the second, and either comes out whether or not the
    override fires. *)
Theorem get_updated_state_raises (self : FBMarketingIncrementalStream)
    (state record : dict) (v : value) (e : exn) :
  record !! cursor_field self = Some v →
  pendulum_parse (default v (recorded_cursor self state)) = Raise e
  ∨ ((∃ dp, pendulum_parse (default v (recorded_cursor self state)) = Ok dp)
     ∧ pendulum_parse v = Raise e) →
  get_updated_state self state record = Raise e.
Proof.
  intros Hrec Hcase. unfold get_updated_state, getitem. rewrite Hrec. simpl.
  rewrite state_value_recorded.
  destruct Hcase as [Hprior|[[dp Hprior] Hv]]; rewrite Hprior; simpl.
  - reflexivity.
  - rewrite Hv. reflexivity.
Qed.

(** The returned state has the cursor field and [include_deleted] and
    nothing else: no other entry of the prior state is carried over. *)
Theorem get_updated_state_keys (self : FBMarketingIncrementalStream)
    (state record st : dict) :
  get_updated_state self state record = Ok st →
  dom st = ({[ cursor_field self; "include_deleted" ]} : gset string).
Proof.
  intros Hst. destruct (get_updated_state_inv _ _ _ _ Hst) as (rv & dr & dp & _ & _ & _ & ->).
  rewrite !dom_insert_L, dom_empty_L, union_empty_r_L. apply (comm_L (∪)).
Qed.

(** The override does not fire on a state that [get_updated_state] has
    just returned: it can hold for one update in a row only. *)
Theorem override_fires_once (self : FBMarketingIncrementalStream)
    (state record st : dict) :
  get_updated_state self state record = Ok st →
  ¬ override_fires self st.
Proof.
  intros Hst. apply override_fires_dec, (returned_state_no_override self state record st Hst).
Qed.

(** A cursor entry that is [None], empty or otherwise false counts as no
    entry at all. *)
Theorem get_updated_state_false_cursor (self : FBMarketingIncrementalStream)
    (state record : dict) (v : value) :
  truthy v = false →
  cursor_field self ≠ "include_deleted" →
  get_updated_state self (<[cursor_field self := v]> state) record
  = get_updated_state self (delete (cursor_field self) state) record.
Proof.
  intros Hv Hne. unfold get_updated_state, potentially_new_records_in_the_past, dict_get.
  rewrite lookup_insert_ne, lookup_delete_ne by congruence.
  rewrite lookup_insert_eq, lookup_delete_eq. simpl.
  unfold py_or. rewrite Hv. reflexivity.
Qed.

(** Two updates in a row: whatever the first one did, override or not,
    the second does not go back behind the cursor the first returned,
    once that cursor reads as a timestamp. *)
Theorem get_updated_state_twice (self : FBMarketingIncrementalStream)
    (state record1 record2 st1 : dict) (c1 rv2 : string) (d1 dr2 : DateTime) :
  get_updated_state self state record1 = Ok st1 →
  st1 !! cursor_field self = Some (VStr c1) →
  c1 ≠ ""%string →
  parse c1 = Some d1 →
  record2 !! cursor_field self = Some (VStr rv2) →
  parse rv2 = Some dr2 →
  ∃ (st2 : dict) (d2 : DateTime),
    get_updated_state self st1 record2 = Ok st2
    ∧ st2 !! cursor_field self = Some (VStr (DateTime_str d2))
    ∧ chronological_max d1 dr2 d2.
Proof.
  intros Hst1 Hc1 Hne Hd1 Hrec2 Hrv2.
  pose proof (returned_state_no_override _ _ _ _ Hst1) as Hov.
  assert (Hcf : cursor_field self ≠ "include_deleted").
  { intros E.
    destruct (get_updated_state_inv _ _ _ _ Hst1) as (rv & dr & dp & _ & _ & _ & ->).
    rewrite E, lookup_insert_eq in Hc1. discriminate. }
  assert (Hprior : recorded_cursor self st1 = Some (VStr c1)).
  { unfold recorded_cursor. rewrite Hc1. simpl.
    destruct (String.eqb_spec c1 ""); [contradiction|reflexivity]. }
  exists (<["include_deleted" := VBool (_include_deleted self)]>
            (<[cursor_field self := VStr (DateTime_str (py_max d1 dr2))]> ∅)),
         (py_max d1 dr2).
  split; [|split].
  - rewrite (get_updated_state_run self st1 record2 rv2 dr2 d1 Hrec2 Hrv2).
    + rewrite Hov. reflexivity.
    + rewrite Hprior. simpl. rewrite Hd1. reflexivity.
  - rewrite lookup_insert_ne by congruence. apply lookup_insert_eq.
  - apply py_max_chronological.
Qed.

End CursorStateMore.

(** * Further properties of the request parameters *)

Section RequestParamsMore.
Context `{Pendulum} `{FacebookApi} `{Requests}.

(** An unreadable recorded cursor stops the state filter before anything
    is logged. *)
Lemma _state_filter_unreadable (self : FBMarketingIncrementalStream) (state : dict)
    (w : World) (v : value) (e : exn) :
  recorded_cursor self state = Some v →
  pendulum_parse v = Raise e →
  _state_filter self state w = (Raise e, w).
Proof.
  unfold recorded_cursor, _state_filter, dict_get. intros Hrec Hparse.
  destruct (state !! cursor_field self) as [v'|]; simpl in *; [|discriminate].
  destruct (truthy v'); simpl; [|discriminate]. injection Hrec as ->.
  unfold mbind, M_bind, lift_res. rewrite Hparse. reflexivity.
Qed.

(** When the state records a cursor whose reading raises,
    [request_params] raises that error, whether or not the override
    would pass the cursor over; nothing is logged and the world is left
    as it was. *)
Theorem request_params_raises (self : FBMarketingIncrementalStream)
    (stream_state : option dict) (w : World) (v : value) (e : exn) :
  recorded_cursor self (state_or_empty stream_state) = Some v →
  pendulum_parse v = Raise e →
  request_params self stream_state w = (Raise e, w).
Proof.
  intros Hrec Hparse. unfold request_params.
  unfold mbind at 1, M_bind at 1.
  rewrite (_state_filter_unreadable self _ w v e Hrec Hparse). reflexivity.
Qed.


(** For the request parameters too, a cursor entry that is [None], empty
    or otherwise false counts as no entry. *)
Theorem request_params_false_cursor (self : FBMarketingIncrementalStream)
    (state : dict) (v : value) (w : World) :
  truthy v = false →
  cursor_field self ≠ "include_deleted" →
  request_params self (Some (<[cursor_field self := v]> state)) w
  = request_params self (Some (delete (cursor_field self) state)) w.
Proof.
  intros Hv Hne. unfold request_params, state_or_empty. simpl.
  unfold _state_filter, potentially_new_records_in_the_past, dict_get.
  rewrite lookup_insert_ne, lookup_delete_ne by congruence.
  rewrite lookup_insert_eq, lookup_delete_eq. simpl. rewrite Hv. reflexivity.
Qed.

End RequestParamsMore.

(** * Further properties of the batched execution *)

Section BatchesMore.
Context `{Pendulum} `{FacebookApi} `{Requests}.

Lemma windows_upto_nil {A} (k n : nat) : windows_upto k n (@nil A) = [].
Proof. destruct k; reflexivity. Qed.

Lemma windows_upto_lookup {A} (k n : nat) (l : list A) (i : nat) (b : list A) :
  (0 < n)%nat → (length l ≤ k)%nat →
  windows_upto k n l !! i = Some b
  ↔ (i * n < length l)%nat ∧ b = take n (drop (i * n) l).
Proof.
  intros Hn. revert l i. induction k as [|k IH]; intros l i Hk.
  - destruct l; [|simpl in Hk; lia]. simpl. split; [discriminate|]. intros [? _]. lia.
  - destruct l as [|x l].
    + simpl. split; [discriminate|]. intros [? _]. lia.
    + change (windows_upto (S k) n (x :: l))
        with (take n (x :: l) :: windows_upto k n (drop n (x :: l))).
      destruct i as [|i].
      * simpl. split.
        -- intros [= <-]. split; [lia|reflexivity].
        -- intros [_ ->]. reflexivity.
      * change ((take n (x :: l) :: windows_upto k n (drop n (x :: l))) !! S i)
          with (windows_upto k n (drop n (x :: l)) !! i).
        rewrite IH by (rewrite length_drop; simpl in *; lia).
        rewrite length_drop, drop_drop.
        replace (n + i * n)%nat with (S i * n)%nat by lia.
        split; intros [? ?]; split; try assumption; lia.
Qed.

(** Without retry residue and with a positive maximum, the batches
    executed are the successive windows of the pending requests. *)
Lemma execute_in_batch_from_windows (self : FBMarketingStream) (fuel : nat) :
  no_residue → (0 < MAX_BATCH_SIZE self)%nat →
  ∀ (k : nat) (reqs : list Request) (w : World),
    (length reqs ≤ k)%nat →
    ∃ evs : list Event,
      execute_in_batch_from self (S fuel) reqs [] [] emit w
      = (Ok (), after w (send reqs (fb w)).2 (net w) evs)
      ∧ executed evs = windows_upto k (MAX_BATCH_SIZE self) reqs.
Proof.
  intros Hno Hmax. induction k as [|k IH]; intros reqs w Hk.
  - destruct reqs; [|simpl in Hk; lia]. exists []. simpl. rewrite after_nil. auto.
  - destruct reqs as [|r reqs']; [exists []; simpl; rewrite after_nil; auto|].
    assert (Hwin : windows_upto (S k) (MAX_BATCH_SIZE self) (r :: reqs')
                   = take (MAX_BATCH_SIZE self) (r :: reqs')
                     :: windows_upto k (MAX_BATCH_SIZE self)
                          (drop (MAX_BATCH_SIZE self) (r :: reqs'))) by reflexivity.
    rewrite Hwin. clear Hwin.
    remember (r :: reqs') as reqs eqn:Heq.
    assert (Hne : reqs ≠ []) by (subst reqs; discriminate).
    assert (Hpos : (0 < length reqs)%nat) by (subst reqs; simpl; lia).
    clear Heq.
    destruct (Nat.lt_ge_cases (length reqs) (MAX_BATCH_SIZE self)) as [Hshort|Hlong].
    + rewrite (execute_in_batch_from_short self (S fuel) reqs [] emit) by (simpl; lia).
      simpl app. rewrite (flush_emit fuel reqs w Hno Hne).
      eexists. split; [reflexivity|].
      rewrite executed_settled, take_ge, drop_ge, windows_upto_nil by lia. reflexivity.
    + set (b := take (MAX_BATCH_SIZE self) reqs).
      set (rest := drop (MAX_BATCH_SIZE self) reqs).
      assert (Hsplit : reqs = b ++ rest) by (symmetry; apply take_drop).
      assert (Hlb : length b = MAX_BATCH_SIZE self) by (unfold b; rewrite length_take; lia).
      assert (Hb : b ≠ []) by (intros E; rewrite E in Hlb; simpl in Hlb; lia).
      assert (Hrest : (length rest ≤ k)%nat) by (unfold rest; rewrite length_drop; lia).
      clearbody b rest. subst reqs.
      rewrite (execute_in_batch_from_full self (S fuel) b rest [] emit w Hb) by (simpl; lia).
      unfold mbind at 1, M_bind at 1. simpl app. rewrite (flush_emit fuel b w Hno Hb).
      set (w1 := after w (send b (fb w)).2 (net w) (settled b (send b (fb w)).1)).
      destruct (IH rest w1 Hrest) as (evs & Hrun & Hex).
      exists (settled b (send b (fb w)).1 ++ evs). split.
      * rewrite Hrun. unfold w1. rewrite after_after, send_app. reflexivity.
      * rewrite executed_app, executed_settled, Hex. reflexivity.
Qed.

(** The batches that [execute_in_batch] runs when every request is
    answered: the [i]-th one is the [i]-th window of [MAX_BATCH_SIZE]
    pending requests, and there is none beyond the requests, so none is
    empty and a count that is a multiple of the maximum ends without an
    extra execution. *)
Theorem execute_in_batch_windows (self : FBMarketingStream) (fuel : nat)
    (reqs : list Request) (w : World) :
  no_residue →
  (0 < MAX_BATCH_SIZE self)%nat →
  (0 < fuel)%nat →
  ∃ evs : list Event,
    execute_in_batch self fuel reqs emit w
    = (Ok (), after w (send reqs (fb w)).2 (net w) evs)
    ∧ ∀ (i : nat) (b : list Request),
        executed evs !! i = Some b
        ↔ (i * MAX_BATCH_SIZE self < length reqs)%nat
          ∧ b = take (MAX_BATCH_SIZE self) (drop (i * MAX_BATCH_SIZE self) reqs).
Proof.
  intros Hno Hmax Hfuel. destruct fuel as [|fuel]; [lia|].
  destruct (execute_in_batch_from_windows self fuel Hno Hmax (length reqs) reqs w)
    as (evs & Hrun & Hex); [lia|].
  exists evs. split; [exact Hrun|].
  intros i b. rewrite Hex. apply windows_upto_lookup; [assumption|lia].
Qed.

(** Each request is answered at most once in one execution. *)
Lemma unanswered_payloads_length (answers : list (Request * Outcome)) :
  (length (unanswered answers) + length (payloads answers.*2) ≤ length answers)%nat.
Proof.
  induction answers as [|[r o] answers IH]; [simpl; lia|].
  unfold unanswered, payloads in *. destruct o; csimpl; lia.
Qed.

Lemma executed_warnings (l : list string) :
  executed (warning_of <$> l) = [] ∧ yielded (warning_of <$> l) = [].
Proof. split; unfold executed, yielded; list_cases l. Qed.

Lemma executed_yields (l : list dict) :
  executed (EvYield <$> l) = [] ∧ yielded (EvYield <$> l) = l.
Proof. split; unfold executed, yielded; list_cases l. Qed.

(** Whatever the transport answers and whatever fuel there is,
    [_execute_batch] raises nothing, runs only batches that are not
    empty and no larger than the one it was given, and adds at most one
    record per request. *)
Lemma _execute_batch_any (fuel : nat) :
  ∀ (batch : list Request) (records : list dict) (w : World),
    ∃ (r : res (list dict)) (s : FB) (evs : list Event),
      _execute_batch fuel batch records w = (r, after w s (net w) evs)
      ∧ (∀ e, r ≠ Raise e)
      ∧ Forall (λ b, b ≠ [] ∧ (length b ≤ length batch)%nat) (executed evs)
      ∧ yielded evs = []
      ∧ (∀ recs, r = Ok recs → (length recs ≤ length records + length batch)%nat).
Proof.
  induction fuel as [|fuel IH]; intros batch records w.
  - destruct batch as [|r0 batch].
    + exists (Ok records), (fb w), []. simpl. rewrite after_nil.
      repeat split; auto; try discriminate. intros recs [= <-]. lia.
    + exists OutOfFuel, (fb w), []. simpl. rewrite after_nil.
      repeat split; auto; discriminate.
  - destruct batch as [|r0 batch'].
    + exists (Ok records), (fb w), []. simpl. rewrite after_nil.
      repeat split; auto; try discriminate. intros recs [= <-]. lia.
    + set (batch := r0 :: batch') in *.
      change (_execute_batch (S fuel) batch records)
        with ('(batch', records') ← batch_execute batch records;
              (match batch' with
               | [] => mret ()
               | _ :: _ => log INFO "Retry failed requests in batch"
               end);;
              _execute_batch fuel batch' records').
      unfold mbind at 1, M_bind at 1.
      unfold batch_execute. unfold mbind at 1, M_bind at 1. rewrite record_event_run.
      unfold mbind at 1, M_bind at 1, on_fb. simpl fb.
      pose proof (send_length batch (fb w)) as Hlen.
      destruct (send batch (fb w)) as [os s1]. cbn [fst snd] in Hlen.
      rewrite dispatch_run.
      pose proof (unanswered_payloads_length (zip batch os)) as Hcount.
      rewrite length_zip, Hlen, Nat.min_id in Hcount.
      set (again := unanswered (zip batch os)) in *.
      set (records1 := records ++ payloads (zip batch os).*2) in *.
      set (logs1 := warning_of <$> failure_bodies (zip batch os).*2).
      cbn iota beta.
      set (w1 := after _ _ _ logs1).
      assert (Hw1 : w1 = after w s1 (net w) (EvExecute batch :: logs1)).
      { unfold w1, after. simpl. rewrite <- app_assoc. reflexivity. }
      clearbody w1. subst w1.
      set (w1 := after w s1 (net w) (EvExecute batch :: logs1)).
      assert (Hretry :
        ∃ evs2, (match again with
                 | [] => mret ()
                 | _ :: _ => log INFO "Retry failed requests in batch"
                 end) w1 = (Ok (), after w1 (fb w1) (net w1) evs2)
                ∧ executed evs2 = [] ∧ yielded evs2 = []).
      { destruct again.
        - exists []. rewrite after_nil. repeat split.
        - exists [EvLog INFO "Retry failed requests in batch"]. repeat split. }
      destruct Hretry as (evs2 & Hretry & He2 & Hy2).
      unfold mbind at 1, M_bind at 1. rewrite Hretry.
      set (w2 := after w1 (fb w1) (net w1) evs2).
      destruct (IH again records1 w2) as (r & s & evs3 & Hrun & Hnr & Hsz & Hy3 & Hrecs).
      exists r, s, ((EvExecute batch :: logs1) ++ evs2 ++ evs3).
      split; [|split; [|split; [|split]]].
      * rewrite Hrun. unfold w2, w1. rewrite !after_after. reflexivity.
      * exact Hnr.
      * rewrite !executed_app, He2. simpl app.
        change (executed (EvExecute batch :: logs1)) with (batch :: executed logs1).
        unfold logs1. rewrite (proj1 (executed_warnings _)). cbn [app].
        constructor; [split; [discriminate|apply Nat.le_refl]|].
        eapply Forall_impl; [exact Hsz|]. intros b [? ?]. split; [assumption|]. lia.
      * rewrite !yielded_app, Hy2, Hy3.
        change (yielded (EvExecute batch :: logs1)) with (yielded logs1).
        unfold logs1. rewrite (proj2 (executed_warnings _)). reflexivity.
      * intros recs Hr. specialize (Hrecs recs Hr).
        unfold records1 in Hrecs. rewrite length_app in Hrecs. lia.
Qed.

Lemma flush_any (fuel : nat) (batch : list Request) (w : World) :
  ∃ (r : res ()) (s : FB) (evs : list Event),
    flush fuel batch emit w = (r, after w s (net w) evs)
    ∧ (∀ e, r ≠ Raise e)
    ∧ Forall (λ b, b ≠ [] ∧ (length b ≤ length batch)%nat) (executed evs)
    ∧ (length (yielded evs) ≤ length batch)%nat.
Proof.
  destruct (_execute_batch_any fuel batch [] w) as (r & s & evs & Hrun & Hnr & Hsz & Hy & Hrecs).
  unfold flush, mbind, M_bind. rewrite Hrun.
  destruct r as [recs|e|].
  - rewrite for_each_emit, after_after.
    exists (Ok ()), s, (evs ++ (EvYield <$> recs)).
    split; [reflexivity|]. split; [discriminate|]. split.
    + rewrite executed_app, (proj1 (executed_yields _)), app_nil_r. exact Hsz.
    + rewrite yielded_app, Hy, (proj2 (executed_yields _)). simpl.
      specialize (Hrecs recs eq_refl). simpl in Hrecs. lia.
  - destruct (Hnr e eq_refl).
  - exists OutOfFuel, s, evs. split; [reflexivity|]. split; [discriminate|].
    split; [exact Hsz|]. rewrite Hy. simpl. lia.
Qed.

Lemma execute_in_batch_from_any (self : FBMarketingStream) (fuel : nat) :
  ∀ (pending api_batch : list Request) (w : World),
    (length api_batch < MAX_BATCH_SIZE self)%nat →
    ∃ (r : res ()) (s : FB) (evs : list Event),
      execute_in_batch_from self fuel pending api_batch [] emit w
      = (r, after w s (net w) evs)
      ∧ (∀ e, r ≠ Raise e)
      ∧ Forall (λ b, b ≠ [] ∧ (length b ≤ MAX_BATCH_SIZE self)%nat) (executed evs)
      ∧ (length (yielded evs) ≤ length api_batch + length pending)%nat.
Proof.
  induction pending as [|r0 pending IH]; intros api_batch w Hlt.
  - change (execute_in_batch_from self fuel [] api_batch [] emit)
      with (flush fuel api_batch emit).
    destruct (flush_any fuel api_batch w) as (r & s & evs & Hrun & Hnr & Hsz & Hy).
    exists r, s, evs. repeat split; try assumption.
    + eapply Forall_impl; [exact Hsz|]. intros b [? ?]. split; [assumption|lia].
    + simpl. lia.
  - rewrite execute_in_batch_from_cons.
    destruct (Nat.eqb_spec (length (api_batch ++ [r0])) (MAX_BATCH_SIZE self)) as [E|E].
    + destruct (flush_any fuel (api_batch ++ [r0]) w) as (r & s & evs & Hrun & Hnr & Hsz & Hy).
      unfold mbind at 1, M_bind at 1. rewrite Hrun.
      rewrite length_app in Hy, E. simpl in Hy, E.
      destruct r as [[]|e|].
      * destruct (IH [] (after w s (net w) evs)) as (r2 & s2 & evs2 & Hrun2 & Hnr2 & Hsz2 & Hy2);
          [simpl; lia|].
        exists r2, s2, (evs ++ evs2).
        split; [rewrite Hrun2, after_after; reflexivity|].
        split; [exact Hnr2|]. split.
        -- rewrite executed_app. apply Forall_app. split; [|exact Hsz2].
           eapply Forall_impl; [exact Hsz|]. intros b [? Hb]. split; [assumption|].
           rewrite length_app in Hb. simpl in Hb. lia.
        -- rewrite yielded_app, length_app. simpl in *. lia.
      * destruct (Hnr e eq_refl).
      * exists OutOfFuel, s, evs. split; [reflexivity|]. split; [discriminate|]. split.
        -- eapply Forall_impl; [exact Hsz|]. intros b [? Hb]. split; [assumption|].
           rewrite length_app in Hb. simpl in Hb. lia.
        -- simpl. lia.
    + destruct (IH (api_batch ++ [r0]) w) as (r & s & evs & Hrun & Hnr & Hsz & Hy).
      { rewrite length_app in *. simpl in *. lia. }
      exists r, s, evs. repeat split; try assumption.
      rewrite length_app in Hy. simpl in *. lia.
Qed.

(** Whether the transport answers a request or leaves it for a retry,
    and whatever fuel there is, with a positive maximum
    [execute_in_batch] makes no HTTP request, never runs an empty batch
    or one above [MAX_BATCH_SIZE], retries included, and yields at most
    one record per pending request. *)
Theorem execute_in_batch_bounds (self : FBMarketingStream) (fuel : nat)
    (reqs : list Request) (w : World) :
  (0 < MAX_BATCH_SIZE self)%nat →
  ∃ (r : res ()) (s : FB) (evs : list Event),
    execute_in_batch self fuel reqs emit w = (r, after w s (net w) evs)
    ∧ Forall (λ b, b ≠ [] ∧ (length b ≤ MAX_BATCH_SIZE self)%nat) (executed evs)
    ∧ (length (yielded evs) ≤ length reqs)%nat.
Proof.
  intros Hmax.
  destruct (execute_in_batch_from_any self fuel reqs [] w) as (r & s & evs & Hrun & _ & Hsz & Hy);
    [simpl; lia|].
  exists r, s, evs. auto.
Qed.

End BatchesMore.

(** * Further properties of reading records *)

Section ReadingMore.
Context `{Pendulum} `{FacebookApi} `{Requests}.

(** The fields asked for an ad creative are those of its schema, in
    their order, without the computed [thumbnail_data_url]. *)
Theorem AdCreatives_fields_schema (self : AdCreatives) :
  ("thumbnail_data_url" ∉ AdCreatives_fields self)
  ∧ (∀ f, f ∈ AdCreatives_fields self
          ↔ f ∈ json_schema_properties self ∧ f ≠ "thumbnail_data_url")
  ∧ (AdCreatives_fields self `sublist_of` json_schema_properties self).
Proof.
  unfold AdCreatives_fields, fields. split; [|split].
  - rewrite list_elem_of_filter. intros [Hne _]. apply Hne. reflexivity.
  - intros f. rewrite list_elem_of_filter. tauto.
  - apply sublist_filter.
Qed.

(** The thumbnail fetch lets one error through and no other: the lookup
    of the content type of a 200 answer that has none. *)
Theorem fetch_thumbnail_raises (url : value) (w : World) (e : exn) :
  (fetch_thumbnail_data_url url w).1 = Raise e
  ↔ e = KeyError "content-type"
    ∧ ∃ response,
        (requests_get url (net w)).1 = Got response
        ∧ status_code response = 200
        ∧ headers response !! "content-type" = None.
Proof.
  unfold fetch_thumbnail_data_url, mbind, M_bind, on_net.
  destruct (requests_get url (net w)) as [[response|msg] n]; simpl.
  - destruct (Z.eqb_spec (status_code response) 200) as [E|E].
    + unfold lift_res. destruct (headers response !! "content-type") as [t|] eqn:Ht; simpl.
      * split; [discriminate|]. intros (_ & r & [= <-] & _ & Hnone). congruence.
      * split; [intros [= <-]; eauto 10|]. intros [-> _]. reflexivity.
    + simpl. split; [discriminate|]. intros (_ & r & [= <-] & Hs & _). contradiction.
  - split; [discriminate|]. intros (_ & r & Hr & _). discriminate.
Qed.

(** With thumbnails off, reading the ad creatives makes no HTTP request
    and yields the records of the answered requests as they came. *)
Theorem AdCreatives_read_records_plain (schema : list string) (include_deleted : bool)
    (fuel : nat) (w : World) (entities : list Entity) (s0 : FB) :
  let self := AdCreatives__init__ schema false include_deleted in
  no_residue →
  (0 < fuel)%nat →
  account_edge get_ad_creatives (VDict (FBMarketingStream_request_params self))
    None (fb w) = (Ok entities, s0) →
  let sent :=
    send ((λ entity, api_get_pending entity (AdCreatives_fields self)) <$> entities) s0 in
  ∃ evs : list Event,
    AdCreatives_read_records self fuel emit w = (Ok (), after w sent.2 (net w) evs)
    ∧ yielded evs = payloads sent.1.
Proof.
  intros self Hno Hfuel Hlist sent. destruct fuel as [|fuel]; [lia|].
  unfold AdCreatives_read_records, read_records.
  unfold mbind at 1, M_bind at 1. unfold mret at 1, M_ret at 1.
  unfold mbind at 1, M_bind at 1. unfold AdCreatives__read_records, on_fb_res.
  rewrite Hlist.
  change (use_batch self) with true. cbv iota.
  change (AdCreatives_each self emit) with emit.
  set (w0 := mkWorld s0 (net w) (trace w)).
  destruct (execute_in_batch_from_emit self fuel Hno
              ((λ entity, api_get_pending entity (AdCreatives_fields self)) <$> entities)
              [] w0) as (evs & Hrun & Hy & _).
  exists evs. split; [|exact Hy].
  unfold execute_in_batch. etrans; [exact Hrun|reflexivity].
Qed.

Lemma for_each_load (fields : list string) (entities : list Entity) (w : World) :
  for_each entities (λ record,
    loaded ← on_fb_res (api_get record fields);
    emit loaded) w
  = ((load_each fields entities (fb w)).1.2,
     after w (load_each fields entities (fb w)).2 (net w)
       (EvYield <$> (load_each fields entities (fb w)).1.1)).
Proof.
  revert w. induction entities as [|entity rest IH]; intros w.
  - simpl. rewrite after_nil. reflexivity.
  - simpl. unfold mbind at 1, M_bind at 1. unfold mbind at 1, M_bind at 1, on_fb_res.
    destruct (api_get entity fields (fb w)) as [[loaded|e|] s1].
    + unfold emit. rewrite record_event_run, IH. simpl fb. simpl net.
      destruct (load_each fields rest s1) as [[ds r] s2]. simpl.
      rewrite after_after. unfold after. simpl. reflexivity.
    + simpl. unfold after. simpl. rewrite app_nil_r. reflexivity.
    + simpl. unfold after. simpl. rewrite app_nil_r. reflexivity.
Qed.

Lemma load_each_length (fields : list string) (entities : list Entity) (s : FB) :
  (length (load_each fields entities s).1.1 ≤ length entities)%nat
  ∧ ((load_each fields entities s).1.2 = Ok () →
     length (load_each fields entities s).1.1 = length entities).
Proof.
  revert s. induction entities as [|entity rest IH]; intros s; simpl; [auto|].
  destruct (api_get entity fields s) as [[loaded|e|] s1]; simpl; try (split; [lia|discriminate]).
  specialize (IH s1). destruct (load_each fields rest s1) as [[ds r] s2]. simpl in *.
  destruct IH as [Hle Heq]. split; [lia|]. intros Hr. rewrite (Heq Hr). reflexivity.
Qed.

(** A stream that does not batch fetches the listed entities one by one
    and yields each as soon as it is loaded. The first fetch that fails
    ends the reading with its fault: the records before it have been
    yielded, none is skipped, no batch is run and nothing is logged. *)
Theorem read_records_unbatched (self : FBMarketingStream)
    (self_request_params : M value) (self_fields : list string)
    (self__read_records : value → M (list Entity))
    (fuel : nat) (w w1 w2 : World) (params : value) (entities : list Entity) :
  use_batch self = false →
  self_request_params w = (Ok params, w1) →
  self__read_records params w1 = (Ok entities, w2) →
  let loaded := load_each self_fields entities (fb w2) in
  read_records self self_request_params self_fields self__read_records fuel emit w
  = (loaded.1.2, after w2 loaded.2 (net w2) (EvYield <$> loaded.1.1))
  ∧ (length loaded.1.1 ≤ length entities)%nat
  ∧ (loaded.1.2 = Ok () → length loaded.1.1 = length entities).
Proof.
  intros Hbatch Hparams Hlist loaded. split; [|apply load_each_length].
  unfold read_records. unfold mbind at 1, M_bind at 1. rewrite Hparams.
  unfold mbind at 1, M_bind at 1. rewrite Hlist, Hbatch.
  apply for_each_load.
Qed.

End ReadingMore.

Section MoreExamples.
#[local] Existing Instance Iso8601.pendulum.
#[local] Existing Instance Sample.api.
#[local] Existing Instance Sample.requests.

(** The state cursor is unreadable and so is the record's: the error is
    the one of the state. *)
Lemma get_updated_state_raises_witness :
  get_updated_state (Sample.campaigns true) {[ "updated_time" := VStr "last week" ]}
    {[ "updated_time" := VStr "yesterday" ]}
  = Raise (ParserError "last week").
Proof.
  assert (Hrec : ({[ "updated_time" := VStr "yesterday" ]} : dict)
                 !! cursor_field (Sample.campaigns true) = Some (VStr "yesterday"))
    by reflexivity.
  apply (get_updated_state_raises (Sample.campaigns true)
           {[ "updated_time" := VStr "last week" ]}
           {[ "updated_time" := VStr "yesterday" ]}
           (VStr "yesterday") (ParserError "last week") Hrec).
  left. vm_compute. reflexivity.
Defined.

Lemma get_updated_state_keys_witness :
  dom (<["include_deleted" := VBool false]>
         ({[ "updated_time" := VStr "2021-03-01T00:00:00+00:00" ]} : dict))
  = ({[ "updated_time"; "include_deleted" ]} : gset string).
Proof.
  apply (get_updated_state_keys (Sample.campaigns false)
           (<["page" := VInt 3]> (Sample.state_march (Some false))) Sample.record_feb).
  vm_compute. reflexivity.
Defined.

Lemma override_fires_once_witness :
  override_fires (Sample.campaigns true) (Sample.state_march None)
  ∧ ¬ override_fires (Sample.campaigns true)
        (<["include_deleted" := VBool true]>
           ({[ "updated_time" := VStr "2021-02-01T00:00:00+00:00" ]} : dict)).
Proof.
  split; [split; reflexivity|].
  apply (override_fires_once (Sample.campaigns true) (Sample.state_march None)
           Sample.record_feb).
  vm_compute. reflexivity.
Defined.

Lemma get_updated_state_false_cursor_witness :
  get_updated_state (Sample.campaigns false)
    (<["updated_time" := VNone]> (Sample.state_march (Some false))) Sample.record_feb
  = get_updated_state (Sample.campaigns false)
      (delete "updated_time" (Sample.state_march (Some false))) Sample.record_feb.
Proof.
  apply (get_updated_state_false_cursor (Sample.campaigns false)
           (Sample.state_march (Some false)) Sample.record_feb VNone).
  - reflexivity.
  - vm_compute. discriminate.
Defined.

(** March recorded, deleted records newly included: the first update
    takes the February of its record, and the second, on a January
    record, stays at February. *)
Lemma get_updated_state_twice_witness :
  ∃ (st2 : dict) (d2 : DateTime),
    get_updated_state (Sample.campaigns true)
      (<["include_deleted" := VBool true]>
         ({[ "updated_time" := VStr "2021-02-01T00:00:00+00:00" ]} : dict))
      {[ "updated_time" := VStr "2021-01-01T00:00:00Z" ]} = Ok st2
    ∧ st2 !! "updated_time" = Some (VStr (DateTime_str d2))
    ∧ chronological_max Sample.feb_2021 Sample.jan_2021 d2.
Proof.
  apply (get_updated_state_twice (Sample.campaigns true) (Sample.state_march None)
           Sample.record_feb {[ "updated_time" := VStr "2021-01-01T00:00:00Z" ]}
           (<["include_deleted" := VBool true]>
              ({[ "updated_time" := VStr "2021-02-01T00:00:00+00:00" ]} : dict))
           "2021-02-01T00:00:00+00:00" "2021-01-01T00:00:00Z"
           Sample.feb_2021 Sample.jan_2021).
  - vm_compute. reflexivity.
  - reflexivity.
  - discriminate.
  - vm_compute. reflexivity.
  - reflexivity.
  - vm_compute. reflexivity.
Defined.

Lemma request_params_raises_witness :
  request_params (Sample.campaigns true) (Some {[ "updated_time" := VStr "last week" ]})
    Sample.world0
  = (Raise (ParserError "last week"), Sample.world0).
Proof.
  apply (request_params_raises (Sample.campaigns true)
           (Some {[ "updated_time" := VStr "last week" ]}) Sample.world0
           (VStr "last week") (ParserError "last week")).
  - vm_compute. reflexivity.
  - vm_compute. reflexivity.
Defined.


Lemma request_params_false_cursor_witness :
  request_params (Sample.campaigns true)
    (Some (<["updated_time" := VStr ""]> (Sample.state_march (Some true)))) Sample.world0
  = request_params (Sample.campaigns true)
      (Some (delete "updated_time" (Sample.state_march (Some true)))) Sample.world0.
Proof.
  apply (request_params_false_cursor (Sample.campaigns true)
           (Sample.state_march (Some true)) (VStr "") Sample.world0).
  - reflexivity.
  - vm_compute. discriminate.
Defined.

Lemma execute_in_batch_windows_witness :
  ∃ evs : list Event,
    execute_in_batch (Sample.ad_creatives false) 1 Sample.pending_120 emit Sample.world0
    = (Ok (), after Sample.world0 (send Sample.pending_120 (fb Sample.world0)).2
                (net Sample.world0) evs)
    ∧ ∀ (i : nat) (b : list Request),
        executed evs !! i = Some b
        ↔ (i * 50 < length Sample.pending_120)%nat
          ∧ b = take 50 (drop (i * 50) Sample.pending_120).
Proof.
  apply (execute_in_batch_windows (Sample.ad_creatives false) 1 Sample.pending_120
           Sample.world0).
  - exact sample_no_residue.
  - simpl. lia.
  - lia.
Defined.

Lemma fetch_thumbnail_raises_witness :
  (fetch_thumbnail_data_url (VStr "https://img.example/4") Sample.world0).1
  = Raise (KeyError "content-type").
Proof.
  apply (proj2 (fetch_thumbnail_raises (VStr "https://img.example/4") Sample.world0
                  (KeyError "content-type"))).
  split; [reflexivity|].
  exists {| status_code := 200; headers := ∅; content := [Byte.x4d] |}.
  repeat split.
Defined.

Lemma AdCreatives_read_records_plain_witness :
  let self := AdCreatives__init__ ["id"; "thumbnail_url"]%string false false in
  let sent :=
    send ((λ entity, api_get_pending entity (AdCreatives_fields self)) <$> [1; 2; 3; 7])
      0%nat in
  ∃ evs : list Event,
    AdCreatives_read_records self 1 emit Sample.world0
    = (Ok (), after Sample.world0 sent.2 (net Sample.world0) evs)
    ∧ yielded evs = payloads sent.1.
Proof.
  apply (AdCreatives_read_records_plain ["id"; "thumbnail_url"]%string false 1
           Sample.world0 [1; 2; 3; 7] 0%nat).
  - exact sample_no_residue.
  - lia.
  - reflexivity.
Defined.

End MoreExamples.

Section FlakyExamples.
#[local] Existing Instance Iso8601.pendulum.
#[local] Existing Instance Sample.requests.

(** Two of three requests are left without an answer at first and are
    run again: the run ends, and the bounds hold through the retry. *)
Lemma execute_in_batch_bounds_witness :
  ∃ (r : res ()) (s : @FB Sample.throttled) (evs : list (@Event Sample.throttled)),
    @execute_in_batch Sample.throttled Sample.requests (Sample.ad_creatives false) 2
      Sample.three_pending emit (Sample.world_throttled 0 [])
    = (r, after (Sample.world_throttled 0 []) s 0%nat evs)
    ∧ Forall (λ b, b ≠ [] ∧ (length b ≤ 50)%nat) (executed evs)
    ∧ (length (yielded evs) ≤ 3)%nat.
Proof.
  apply (@execute_in_batch_bounds Sample.throttled Sample.requests
           (Sample.ad_creatives false) 2 Sample.three_pending (Sample.world_throttled 0 [])).
  simpl. lia.
Defined.

(** Four campaigns are listed; the fetch of the third fails after the
    first two have been yielded, and the fourth is never fetched. *)
Lemma read_records_unbatched_witness :
  @incremental_read_records Iso8601.pendulum Sample.flaky Sample.requests
    (Sample.campaigns false) Campaigns__read_records 1 None emit (Sample.world_flaky 0 [])
  = (Raise (TransportFault "(#2) Service temporarily unavailable"),
     Sample.world_flaky 4 [ EvYield {[ "id" := VInt 1 ]}; EvYield {[ "id" := VInt 2 ]} ])
  ∧ (2 ≤ 4)%nat
  ∧ (Raise (TransportFault "(#2) Service temporarily unavailable") = Ok () → 2%nat = 4%nat).
Proof.
  apply (@read_records_unbatched Sample.flaky Sample.requests
           (Sample.campaigns false)
           (request_params (Sample.campaigns false) None)
           (fields (Sample.campaigns false)) Campaigns__read_records 1
           (Sample.world_flaky 0 []) (Sample.world_flaky 0 []) (Sample.world_flaky 1 [])
           (VDict {[ "limit" := VInt 100;
                     "filtering" :=
                       VList [ filter_clause "campaign.updated_time" "GREATER_THAN"
                                 (VInt 1609459200) ] ]})
           [1; 2; 3; 4]).
  - reflexivity.
  - vm_compute. reflexivity.
  - reflexivity.
Defined.

End FlakyExamples.

(** * The thumbnail of an answer without a content type *)

Section ThumbnailDefect.
#[local] Existing Instance Iso8601.pendulum.
#[local] Existing Instance Sample.second_account.
#[local] Existing Instance Sample.requests.

(** C8: the code at the failing input. The account lists the creatives
    1, 4 and 2 and their details arrive in one batch. The image of
    creative 4 answers 200 with a body and no content type: the fetch
    has not failed, yet the lookup of the header raises inside
    [fetch_thumbnail_data_url], where only the faults of the transport
    are caught. The error leaves [read_records] after the record of
    creative 1: the record of creative 4 is not yielded, nor is the one
    of creative 2 behind it, and no warning is logged. *)
Theorem thumbnail_without_content_type_escapes :
  (requests_get (VStr "https://img.example/4") (net (Sample.world_second 0 0 []))).1
  = Got {| status_code := 200; headers := ∅; content := [Byte.x4d] |}
  ∧ (AdCreatives_read_records (Sample.ad_creatives true) 1 emit
       (Sample.world_second 0 0 [])).1
    = Raise (KeyError "content-type")
  ∧ executed (trace (AdCreatives_read_records (Sample.ad_creatives true) 1 emit
                       (Sample.world_second 0 0 [])).2)
    = [[1; 4; 2]]
  ∧ yielded (trace (AdCreatives_read_records (Sample.ad_creatives true) 1 emit
                      (Sample.world_second 0 0 [])).2)
    = [ {[ "id" := VInt 1; "thumbnail_url" := VStr "https://img.example/1";
           "thumbnail_data_url" := VStr "data:image/png;base64,TWFu" ]} ]
  ∧ logged (trace (AdCreatives_read_records (Sample.ad_creatives true) 1 emit
                     (Sample.world_second 0 0 [])).2)
    = [].
Proof. repeat split; vm_compute; reflexivity. Qed.

End ThumbnailDefect.
